(** * plyql: the command-line pipeline of [src/cli.ts]

    A shallow embedding of [parseIntervalString] and [run].  The libraries
    the file imports (the JavaScript runtime, chronoshift, plywood, the
    druid requester, nopt) are collaborators: the functions are written
    over an interface of them, and a reference implementation of the time
    interface is given to evaluate the functions on concrete strings. *)

From Stdlib Require Import ZArith String Ascii List Lia Bool.
From stdpp Require Import base option list strings gmap.

Local Open Scope Z_scope.

(** ** JavaScript values used by the file *)

Module JS.

(** Thrown values: the file throws [Error]; a call on [null] throws [TypeError].
    Both carry the [message] that [run] prints. *)
Inductive exn : Type :=
| Error (message : string)
| TypeError (message : string).

Definition message (e : exn) : string :=
  match e with
  | Error m => m
  | TypeError m => m
  end.

(** A computation that returns or throws. *)
Definition result (A : Type) : Type := exn + A.

Definition throw {A : Type} (e : exn) : result A := inl e.

Definition bind {A B : Type} (r : result A) (k : A -> result B) : result B :=
  match r with
  | inl e => inl e
  | inr a => k a
  end.

(** A string is falsy exactly when it is empty; [undefined] is falsy. *)
Definition truthy (o : option string) : bool :=
  match o with
  | Some (String _ _) => true
  | _ => false
  end.

(** [a || b] on possibly undefined strings. *)
Definition or_else (a b : option string) : option string :=
  if truthy a then a else b.

(** The string of a truthy value. *)
Definition text (o : option string) : string := default EmptyString o.

(** [(a || d)] for a string literal [d]. *)
Definition or_default (a : option string) (d : string) : string :=
  if truthy a then text a else d.

(** [str[0]]: the first character, [undefined] on the empty string. *)
Definition char0 (s : string) : option ascii := String.get 0 s.

(** [str.split(sep)] for a separator of one character. *)
Fixpoint split (sep : ascii) (s : string) : list string :=
  match s with
  | EmptyString => [EmptyString]
  | String c rest =>
      if Ascii.eqb c sep then EmptyString :: split sep rest
      else match split sep rest with
           | [] => [String c EmptyString]
           | p :: ps => String c p :: ps
           end
  end.

(** Occurrences of a character in a string. *)
Fixpoint occurrences (sep : ascii) (s : string) : nat :=
  match s with
  | EmptyString => O
  | String c rest =>
      if Ascii.eqb c sep then S (occurrences sep rest) else occurrences sep rest
  end.

(** [toLowerCase] on the letters A to Z; other characters are kept. *)
Definition lower_char (c : ascii) : ascii :=
  let n := nat_of_ascii c in
  if ((65 <=? n) && (n <=? 90))%nat then ascii_of_nat (n + 32) else c.

Fixpoint toLowerCase (s : string) : string :=
  match s with
  | EmptyString => EmptyString
  | String c rest => String (lower_char c) (toLowerCase rest)
  end.

End JS.

#[global] Instance result_bind : MBind JS.result := fun A B k r => JS.bind r k.
#[global] Instance result_ret : MRet JS.result := fun A a => inr a.

(** ** Dates, durations and time ranges *)

(** A [Date] object holds a time value in milliseconds since the epoch, or
    NaN (an invalid date). *)
Inductive Date : Type :=
| DateMs (t : Z)
| InvalidDate.

(** chronoshift's [Timezone]; the file only uses [Timezone.UTC], and no
    other zone is modelled. *)
Inductive Timezone : Type :=
| UTC.

(** Modelled from the spec: plywood's [TimeRange] is imported by the file
    and not part of it.  Section 3 has it as [{start, end}];
    [TimeRange.fromJS({ start, end })] keeps the two bounds it is given, and a
    bound may be [null].  Section 4.1 has the resolver not enforce that the
    start is before the end; a check of the bounds by plywood itself is not
    modelled, so a range here is the pair of bounds handed to
    [TimeRange.fromJS]. *)
Record TimeRange : Type := mkTimeRange {
  start : option Date;
  end_ : option Date
}.

Module TimeRange.
Definition fromJS (start end_ : option Date) : TimeRange :=
  mkTimeRange start end_.
End TimeRange.

(** The time functions [parseIntervalString] calls: the [Date] constructor
    on a string, [toISOString] of the current time, and chronoshift's
    [Duration.fromJS] and [Duration#move].  [Duration_move] receives the
    variable it is called on as it is, so also [null] ([None]). *)
Class TimeApi : Type := {
  Duration : Type;
  new_Date : string -> Date;
  toISOString : Z -> string;
  Duration_fromJS : string -> JS.result Duration;
  Duration_move : Duration -> option Date -> Timezone -> Z -> JS.result (option Date)
}.

Section ParseInterval.

Context {api : TimeApi}.

(** [parseIntervalString(str)]; [now] is the time value of [new Date()]. *)
Definition parseIntervalString (now : Z) (str : string) : JS.result TimeRange :=
  let parts := JS.split "/" str in
  if (2 <? length parts)%nat then JS.throw (JS.Error ("Can not parse string " +:+ str))
  else
    let p0 : string := default EmptyString (parts !! 0%nat) in
    let p1 : string :=
      if (length parts =? 2)%nat then default EmptyString (parts !! 1%nat)
      else toISOString now in
    let start : option Date := None in
    let end_ : option Date := None in
    if bool_decide (JS.char0 p0 = Some "P"%char) then
      duration ← Duration_fromJS p0;
      let end_ := Some (new_Date p1) in
      start ← Duration_move duration end_ UTC (-1);
      mret (TimeRange.fromJS start end_)
    else if bool_decide (JS.char0 p1 = Some "P"%char) then
      let start := Some (new_Date p0) in
      duration ← Duration_fromJS p1;
      end_ ← Duration_move duration end_ UTC 1;
      mret (TimeRange.fromJS start end_)
    else
      let start := Some (new_Date p0) in
      let end_ := Some (new_Date p1) in
      mret (TimeRange.fromJS start end_).

End ParseInterval.

(** ** A reference implementation of the time interface

    The [Date] constructor, [toISOString] and chronoshift's [Duration] are
    imported by the file and not part of it.  The spec resolves all instants
    in the UTC calendar (section 4.1): this implementation follows
    ECMAScript's date algorithms for the UTC forms [YYYY-MM-DD] and
    [YYYY-MM-DDTHH:mm:ss(.sss)Z] and chronoshift's ISO-8601 durations, moved
    span by span from years down to seconds.  It serves to evaluate
    [parseIntervalString] on the strings of the spec; the general statements
    below hold for every implementation of the interface. *)

Module RefTime.

Definition msPerDay : Z := 86400000.

(** Days since the epoch of a civil date; [m] is 1 to 12, [d] may overflow. *)
Definition days_from_civil (y m d : Z) : Z :=
  let y' := if m <=? 2 then y - 1 else y in
  let era := y' / 400 in
  let yoe := y' - era * 400 in
  let doy := (153 * (if 2 <? m then m - 3 else m + 9) + 2) / 5 + d - 1 in
  let doe := yoe * 365 + yoe / 4 - yoe / 100 + doy in
  era * 146097 + doe - 719468.

(** The civil date (year, month 1 to 12, day) of a day number. *)
Definition civil_from_days (z : Z) : Z * Z * Z :=
  let z := z + 719468 in
  let era := z / 146097 in
  let doe := z - era * 146097 in
  let yoe := (doe - doe / 1460 + doe / 36524 - doe / 146096) / 365 in
  let doy := doe - (365 * yoe + yoe / 4 - yoe / 100) in
  let mp := (5 * doy + 2) / 153 in
  let d := doy - (153 * mp + 2) / 5 + 1 in
  let m := if mp <? 10 then mp + 3 else mp - 9 in
  ((if m <=? 2 then yoe + era * 400 + 1 else yoe + era * 400), m, d).

(** ECMAScript's MakeDay: [month] counts from 0 and may be any integer. *)
Definition MakeDay (year month date : Z) : Z :=
  days_from_civil (year + month / 12) (month mod 12 + 1) 1 + date - 1.

(** ECMAScript's TimeClip. *)
Definition TimeClip (t : Z) : Date :=
  if Z.abs t <=? 8640000000000000 then DateMs t else InvalidDate.

Definition daysInMonth (y m : Z) : Z :=
  days_from_civil (y + m / 12) (m mod 12 + 1) 1 - days_from_civil y m 1.

Definition digit (c : ascii) : option Z :=
  let n := nat_of_ascii c in
  if ((48 <=? n) && (n <=? 57))%nat then Some (Z.of_nat (n - 48)) else None.

(** Exactly [n] decimal digits. *)
Fixpoint digits (n : nat) (acc : Z) (s : string) : option (Z * string) :=
  match n with
  | O => Some (acc, s)
  | S n' =>
      match s with
      | String c rest =>
          match digit c with
          | Some v => digits n' (10 * acc + v) rest
          | None => None
          end
      | EmptyString => None
      end
  end.

Definition expect (c : ascii) (s : string) : option string :=
  match s with
  | String c' rest => if Ascii.eqb c c' then Some rest else None
  | EmptyString => None
  end.

Definition time_of_day (s : string) : option Z :=
  s ← expect "T" s;
  '(h, s) ← digits 2 0 s;
  s ← expect ":" s;
  '(mi, s) ← digits 2 0 s;
  s ← expect ":" s;
  '(sec, s) ← digits 2 0 s;
  '(ms, s) ← match expect "." s with
              | Some s' => digits 3 0 s'
              | None => Some (0, s)
              end;
  s ← expect "Z" s;
  if bool_decide (s = EmptyString) && (h <=? 23) && (mi <=? 59) && (sec <=? 59)
  then Some (((h * 60 + mi) * 60 + sec) * 1000 + ms)
  else None.

Definition parse_iso (s : string) : option Z :=
  '(y, s) ← digits 4 0 s;
  s ← expect "-" s;
  '(m, s) ← digits 2 0 s;
  s ← expect "-" s;
  '(d, s) ← digits 2 0 s;
  tod ← (if bool_decide (s = EmptyString) then Some 0 else time_of_day s);
  if (1 <=? m) && (m <=? 12) && (1 <=? d) && (d <=? daysInMonth y m)
  then Some (days_from_civil y m d * msPerDay + tod)
  else None.

(** Modelled from the spec: the [Date] constructor on a string, for the
    absolute instants of section 4.1 in their ISO-8601 UTC forms; any other
    string is an invalid date here. *)
Definition new_Date (s : string) : Date :=
  match parse_iso s with
  | Some t => TimeClip t
  | None => InvalidDate
  end.

(** [n] written with [width] decimal digits. *)
Fixpoint dec (width : nat) (n : Z) : string :=
  match width with
  | O => EmptyString
  | S w => dec w (n / 10) +:+ String (ascii_of_nat (48 + Z.to_nat (n mod 10))) EmptyString
  end.

(** Modelled from the spec: [toISOString] of a valid date, the instant in
    the form [YYYY-MM-DDTHH:mm:ss.sssZ]. *)
Definition toISOString (t : Z) : string :=
  let '(y, m, d) := civil_from_days (t / msPerDay) in
  let tod := t mod msPerDay in
  let year :=
    if (0 <=? y) && (y <=? 9999) then dec 4 y
    else (if y <? 0 then "-" else "+") +:+ dec 6 (Z.abs y) in
  year +:+ "-" +:+ dec 2 m +:+ "-" +:+ dec 2 d +:+ "T" +:+
  dec 2 (tod / 3600000) +:+ ":" +:+ dec 2 (tod / 60000 mod 60) +:+ ":" +:+
  dec 2 (tod / 1000 mod 60) +:+ "." +:+ dec 3 (tod mod 1000) +:+ "Z".

(** chronoshift's spans, in the order [move] applies them. *)
Record Duration : Type := mkDuration {
  year : Z; month : Z; week : Z; day : Z; hour : Z; minute : Z; second : Z
}.

(** The longest run of decimal digits at the head of a string. *)
Fixpoint number (s : string) (acc : option Z) : option Z * string :=
  match s with
  | String c rest =>
      match digit c with
      | Some v => number rest (Some (10 * default 0 acc + v))
      | None => (acc, s)
      end
  | EmptyString => (acc, s)
  end.

(** An optional group [(\d+)c] of the period pattern; 0 when it is absent. *)
Definition span (c : ascii) (s : string) : Z * string :=
  match number s None with
  | (Some n, String c' rest) => if Ascii.eqb c c' then (n, rest) else (0, s)
  | _ => (0, s)
  end.

Definition parse_week (s : string) : option Z :=
  match number s None with
  | (Some n, "W") => Some n
  | _ => None
  end.

Definition parse_period (s : string) : option Duration :=
  let '(y, s) := span "Y" s in
  let '(mo, s) := span "M" s in
  let '(d, s) := span "D" s in
  match s with
  | EmptyString => Some (mkDuration y mo 0 d 0 0 0)
  | String "T" s =>
      let '(h, s) := span "H" s in
      let '(mi, s) := span "M" s in
      let '(sec, s) := span "S" s in
      if bool_decide (s = EmptyString) then Some (mkDuration y mo 0 d h mi sec) else None
  | _ => None
  end.

Definition is_empty (d : Duration) : bool :=
  (year d =? 0) && (month d =? 0) && (week d =? 0) && (day d =? 0) &&
  (hour d =? 0) && (minute d =? 0) && (second d =? 0).

(** Modelled from the spec: chronoshift's [Duration.fromJS] on an ISO-8601
    duration (section 4.1: recognised by a leading 'P'); a week count stands
    alone, and a duration without any span is refused. *)
Definition Duration_fromJS (s : string) : JS.result Duration :=
  match s with
  | String "P" body =>
      match parse_week body with
      | Some w =>
          if w =? 0 then JS.throw (JS.Error "Duration can not have empty weeks")
          else inr (mkDuration 0 0 w 0 0 0 0)
      | None =>
          match parse_period body with
          | Some d =>
              if is_empty d then JS.throw (JS.Error "Duration can not be empty")
              else inr d
          | None => JS.throw (JS.Error ("Can not parse duration '" +:+ s +:+ "'"))
          end
      end
  | _ => JS.throw (JS.Error ("Can not parse duration '" +:+ s +:+ "'"))
  end.

(** The length in milliseconds of the weeks, days, hours, minutes and
    seconds of a duration. *)
Definition fixed_length (d : Duration) : Z :=
  ((((week d * 7 + day d) * 24 + hour d) * 60 + minute d) * 60 + second d) * 1000.

(** [setUTCFullYear], [setUTCMonth] and [setUTCDate] on a time value, by
    [years], [months] and [days]. *)
Definition shift_calendar (years months days : Z) (t : Z) : Z :=
  let '(y, m, d) := civil_from_days (t / msPerDay) in
  MakeDay (y + years) (m - 1 + months) (d + days) * msPerDay + t mod msPerDay.

(** One mover after the other, as [Duration#move] loops over the spans. *)
Definition move_ms (d : Duration) (step : Z) (t : Z) : Z :=
  let t := if year d =? 0 then t else shift_calendar (step * year d) 0 0 t in
  let t := if month d =? 0 then t else shift_calendar 0 (step * month d) 0 t in
  let t := if week d =? 0 then t else shift_calendar 0 0 (step * week d * 7) t in
  let t := if day d =? 0 then t else shift_calendar 0 0 (step * day d) t in
  let t := if hour d =? 0 then t else t + step * hour d * 3600000 in
  let t := if minute d =? 0 then t else t + step * minute d * 60000 in
  if second d =? 0 then t else t + step * second d * 1000.

(** Modelled from the spec: chronoshift's [Duration#move] in UTC (section
    4.1: [start = end - duration], [end = start + duration], in the UTC
    calendar).  A mover reads the time value of its date: on [null] that is a
    [TypeError]; an invalid date stays invalid. *)
Definition Duration_move (d : Duration) (date : option Date) (tz : Timezone)
    (step : Z) : JS.result (option Date) :=
  match date with
  | None => JS.throw (JS.TypeError "Cannot read property 'valueOf' of null")
  | Some InvalidDate => inr (Some InvalidDate)
  | Some (DateMs t) => inr (Some (TimeClip (move_ms d step t)))
  end.

#[export] Instance api : TimeApi :=
  Build_TimeApi Duration new_Date toISOString Duration_fromJS Duration_move.

End RefTime.

(** ** The collaborators of [run] *)

(** A requester is what the factories return: the bare druid requester of
    [druidRequesterFactory] or one of plywood's three helper layers around
    the [requester] it was given, with the parameters of the call. *)
Inductive Requester : Type :=
| druidRequester (host : string) (timeout : Z)
| retryRequester (requester : Requester) (retry delay : Z) (retryOnTimeout : bool)
| verboseRequester (requester : Requester)
| concurrentLimitRequester (requester : Requester) (concurrentLimit : Z).

(** The [special] of an attribute override. *)
Inductive Special : Type := unique | histogram.

Record AttributeJS : Type := mkAttributeJS {
  name : string;
  special : Special
}.

(** [$(timeAttribute).in(interval)]. *)
Inductive Filter : Type :=
| In_ (ref : string) (interval : TimeRange).

Module Druid.
Record Context : Type := mkContext {
  timeout : Z;
  useCache : option bool;
  populateCache : option bool
}.
End Druid.

(** The object given to [External.fromJS]; the dataset is identified with it. *)
Record External : Type := mkExternal {
  engine : string;
  dataSource : string;
  timeAttribute : string;
  allowEternity : bool;
  allowSelectQueries : bool;
  introspectionStrategy : option string;
  filter : option Filter;
  requester : Requester;
  attributeOverrides : list AttributeJS;
  context : Druid.Context
}.

(** The result of [Expression.parseSQL]. *)
Record SqlParse (Expression : Type) : Type := mkSqlParse {
  verb : string;
  table : option string;
  expression : Expression
}.
Arguments mkSqlParse {Expression}.
Arguments verb {Expression}.
Arguments table {Expression}.
Arguments expression {Expression}.

(** plywood's expressions: the parser, which throws on a malformed query,
    and the JSON text of an expression.  plywood's [External.fromJS]
    validates the object it is given: [External_fromJS_throws js] is the
    error it throws on [js], if it throws. *)
Class QueryApi : Type := {
  Expression : Type;
  Expression_parseSQL : string -> JS.result (SqlParse Expression);
  JSON_stringify : Expression -> string;
  External_fromJS_throws : External -> option JS.exn
}.

(** The flags as nopt returns them; a flag that was not given is [None]
    (or [false] for the switches, which are only tested for truth). *)
Module Parsed.
Record t : Type := mk {
  host : option string;
  druid : option string;
  data_source : option string;
  help : bool;
  query : option string;
  interval : option string;
  version : bool;
  verbose : bool;
  timeout : option Z;
  retry : option Z;
  concurrent : option Z;
  output : option string;
  allow : option (list string);
  force_unique : option (list string);
  force_histogram : option (list string);
  skip_cache : bool;
  introspection_strategy : option string;
  argv_original : list string
}.
End Parsed.

(** ** Effects of [run] *)

(** What is done with the promise of the engine call. *)
Inductive Handler : Type :=
| returned
| print_attributes
| print_data (output : string).

(** How [run] ends: it returns [undefined] or a promise, or an error is
    thrown out of it. *)
Inductive retval : Type :=
| undefined
| promise
| thrown (e : JS.exn).

(** A statement either falls through with a value or returns from [run]. *)
Inductive step (A : Type) : Type :=
| Next (a : A)
| Return (r : retval).
Arguments Next {A}.
Arguments Return {A}.

Section Effects.

Context {q : QueryApi}.

(** The calls [run] makes to the outside, in program order. *)
Inductive event : Type :=
| printUsage
| printVersion
| console_log (args : list string)
| parseSQL (query : string)
| requesterFactory (made : Requester)
| External_fromJS (js : External)
| introspect (dataset : External) (h : Handler)
| compute (expression : Expression) (context : gmap string External) (h : Handler).

Definition M (A : Type) : Type := list event * step A.

Definition M_bind {A B : Type} (k : A -> M B) (m : M A) : M B :=
  match m with
  | (tr, Next a) => let '(tr', s) := k a in (tr ++ tr', s)
  | (tr, Return r) => (tr, Return r)
  end.

Definition call (e : event) : M unit := ([e], Next tt).

Definition return_ {A : Type} (r : retval) : M A := ([], Return r).

Definition when (b : bool) (m : M unit) : M unit :=
  if b then m else ([], Next tt).

(** [for (let x of l) body]. *)
Fixpoint for_of {A : Type} (l : list A) (body : A -> M unit) : M unit :=
  match l with
  | [] => ([], Next tt)
  | x :: rest => M_bind (fun _ => for_of rest body) (body x)
  end.

(** Falling off the end of the function returns [undefined]. *)
Definition finish (m : M unit) : list event * retval :=
  match m with
  | (tr, Next _) => (tr, undefined)
  | (tr, Return r) => (tr, r)
  end.

End Effects.

#[global] Instance M_mbind {q : QueryApi} : MBind M := @M_bind q.
#[global] Instance M_mret {q : QueryApi} : MRet M := fun A a => ([], Next a).

(** ** [run]

    The function is one sequence of blocks, most of them headed by a
    comment in the source; each block is a definition here and [run] is
    their sequence, in the order of the source. *)

Section Run.

Context {api : TimeApi} {q : QueryApi}.

(** Lines 134-139: without a [command], no arguments or [--help] print the usage. *)
Definition check_usage (parsed : Parsed.t) (command : option Parsed.t) : M unit :=
  match command with
  | None =>
      when ((length (Parsed.argv_original parsed) =? 0)%nat || Parsed.help parsed)
        (call printUsage;; return_ undefined)
  | Some _ => mret tt
  end.

(** Lines 141-144. *)
Definition check_version (parsed : Parsed.t) : M unit :=
  when (Parsed.version parsed) (call printVersion;; return_ undefined).

(** The test of line 151, without its negation. *)
Definition allowed (allow : string) : bool :=
  String.eqb allow "eternity" || String.eqb allow "select".

(** Lines 148-155, "Get allow". *)
Definition get_allow (parsed : Parsed.t) : M (list string) :=
  let allows := default [] (Parsed.allow parsed) in
  for_of allows (fun allow =>
    when (negb (allowed allow))
      (call (console_log ["Unexpected allow"; allow]);; return_ undefined));;
  mret allows.

(** [attributeOverrides.push({ name: attributeName, special })] for each name. *)
Definition push_all (special : Special) (names : list string)
    (attributeOverrides : list AttributeJS) : list AttributeJS :=
  foldl (fun acc attributeName => acc ++ [mkAttributeJS attributeName special])
    attributeOverrides names.

(** Lines 157-166, "Get forced attribute overrides". *)
Definition get_attributeOverrides (parsed : Parsed.t) : list AttributeJS :=
  let attributeOverrides := [] in
  let forceUnique := default [] (Parsed.force_unique parsed) in
  let attributeOverrides := push_all unique forceUnique attributeOverrides in
  let forceHistogram := default [] (Parsed.force_histogram parsed) in
  push_all histogram forceHistogram attributeOverrides.

(** The test of line 170. *)
Definition bad_output (output : string) : bool :=
  negb (String.eqb output "json") && negb (String.eqb output "csv") &&
  negb (String.eqb output "tsv") && negb (String.eqb output "flat").

(** Lines 168-173, "Get output". *)
Definition get_output (parsed : Parsed.t) : M string :=
  let output := JS.toLowerCase (JS.or_default (Parsed.output parsed) "json") in
  when (bad_output output)
    (call (console_log
       ["output must be one of json, csv, tsv, or flat (is " +:+ output +:+ "})"]);;
     return_ undefined);;
  mret output.

(** Lines 175-180, "Get host". *)
Definition get_host (parsed : Parsed.t) : M (option string) :=
  let host := JS.or_else (Parsed.druid parsed) (Parsed.host parsed) in
  when (negb (JS.truthy host))
    (call (console_log ["must have a host"]);; return_ undefined);;
  mret host.

(** The test of line 192. *)
Definition bad_verb (verb : string) : bool :=
  negb (String.eqb verb "SELECT") && negb (String.eqb verb "DESCRIBE").

(** Lines 182-199, "Get SQL". *)
Definition get_sql (parsed : Parsed.t) : M (SqlParse Expression) :=
  let query := Parsed.query parsed in
  if JS.truthy query then
    call (parseSQL (JS.text query));;
    match Expression_parseSQL (JS.text query) with
    | inl e =>
        call (console_log ["Could not parse query as SQL:"; JS.message e]);;
        return_ undefined
    | inr sqlParse =>
        when (bad_verb (verb sqlParse))
          (call (console_log ["SQL must be a SELECT or DESCRIBE query"]);;
           return_ undefined);;
        mret sqlParse
    end
  else
    call (console_log ["no query found please use --query (-q) flag"]);;
    return_ undefined.

(** Lines 203-207. *)
Definition log_expression (verbose : bool) (expression : Expression) : M unit :=
  when verbose
    (call (console_log ["Parsed query as the following plywood expression (as JSON):"]);;
     call (console_log [JSON_stringify expression]);;
     call (console_log ["---------------------------"])).

(** Lines 209-219: the binding name and the data source. *)
Definition get_dataSource (parsed : Parsed.t) (sqlParse : SqlParse Expression)
    : M (string * string) :=
  let dataName := "data" in
  if JS.truthy (Parsed.data_source parsed) then
    mret (dataName, JS.text (Parsed.data_source parsed))
  else if JS.truthy (table sqlParse) then
    mret (JS.text (table sqlParse), JS.text (table sqlParse))
  else
    call (console_log ["must have data source"]);; return_ undefined.

(** Lines 223-251: the requester and its layers. *)
Definition get_requester (parsed : Parsed.t) (host : option string) (timeout : Z)
    (verbose : bool) : M Requester :=
  let requester := druidRequester (JS.text host) timeout in
  call (requesterFactory requester);;
  let retry := default 2 (Parsed.retry parsed) in
  requester ←
    (if 0 <? retry then
       let requester := retryRequester requester retry 500 false in
       call (requesterFactory requester);; mret requester
     else mret requester);
  requester ←
    (if verbose then
       let requester := verboseRequester requester in
       call (requesterFactory requester);; mret requester
     else mret requester);
  let concurrent := default 2 (Parsed.concurrent parsed) in
  if 0 <? concurrent then
    let requester := concurrentLimitRequester requester concurrent in
    call (requesterFactory requester);; mret requester
  else mret requester.

(** Lines 255-267: the time filter of [--interval]. *)
Definition get_filter (now : Z) (parsed : Parsed.t) (timeAttribute : string)
    : M (option Filter) :=
  let intervalString := Parsed.interval parsed in
  if JS.truthy intervalString then
    match parseIntervalString now (JS.text intervalString) with
    | inl e =>
        call (console_log ["Could not parse interval"; JS.text intervalString]);;
        call (console_log [JS.message e]);;
        return_ undefined
    | inr interval => mret (Some (In_ timeAttribute interval))
    end
  else mret None.

(** Lines 269-276. *)
Definition get_druidContext (parsed : Parsed.t) (timeout : Z) : Druid.Context :=
  if Parsed.skip_cache parsed
  then Druid.mkContext timeout (Some false) (Some false)
  else Druid.mkContext timeout None None.

(** Lines 278-289: [External.fromJS] is called outside every [try], so an
    error it throws is thrown out of [run]. *)
Definition get_dataset (js : External) : M External :=
  call (External_fromJS js);;
  match External_fromJS_throws js with
  | Some e => return_ (thrown e)
  | None => mret js
  end.

(** Lines 291-346: the call to the engine. *)
Definition execute (command : option Parsed.t) (sqlParse : SqlParse Expression)
    (dataName output : string) (dataset : External) : M unit :=
  if String.eqb (verb sqlParse) "DESCRIBE" then
    match command with
    | None => call (introspect dataset print_attributes)
    | Some _ => call (introspect dataset returned);; return_ promise
    end
  else if String.eqb (verb sqlParse) "SELECT" then
    let context : gmap string External := <[dataName := dataset]> ∅ in
    match command with
    | None => call (compute (expression sqlParse) context (print_data output))
    | Some _ => call (compute (expression sqlParse) context returned);; return_ promise
    end
  else
    call (console_log ["Unsupported verb"]).

(** [run(command)]: [argv] is what [parseArgs()] returns for the process
    arguments and [now] the time value of [new Date()]. *)
Definition run (now : Z) (argv : Parsed.t) (command : option Parsed.t)
    : list event * retval :=
  finish (
    let parsed := default argv command in
    check_usage parsed command;;
    check_version parsed;;
    let verbose := Parsed.verbose parsed in
    allows ← get_allow parsed;
    let attributeOverrides := get_attributeOverrides parsed in
    output ← get_output parsed;
    host ← get_host parsed;
    sqlParse ← get_sql parsed;
    let expression := expression sqlParse in
    log_expression verbose expression;;
    '(dataName, dataSource) ← get_dataSource parsed sqlParse;
    let timeout := default 60000 (Parsed.timeout parsed) in
    requester ← get_requester parsed host timeout verbose;
    let timeAttribute := "__time" in
    filter ← get_filter now parsed timeAttribute;
    let druidContext := get_druidContext parsed timeout in
    dataset ←
      get_dataset
        (mkExternal "druid" dataSource timeAttribute
           (bool_decide ("eternity" ∈ allows)) (bool_decide ("select" ∈ allows))
           (Parsed.introspection_strategy parsed)
           filter requester attributeOverrides druidContext);
    execute command sqlParse dataName output dataset).

End Run.

(** ** A stand-in for the expression parser

    plywood's [Expression.parseSQL] and [External.fromJS] are collaborators
    of the file; [run] is stated for every parser and every check of the
    dataset.  This double serves to run the pipeline on concrete flags. *)

Module SqlDouble.

Fixpoint from_clause (words : list string) : option string :=
  match words with
  | w :: rest =>
      if String.eqb w "FROM" then head rest else from_clause rest
  | [] => None
  end.

(** Modelled from the spec: plywood's [Expression.parseSQL] (section 6: raw
    query string in, [ParsedQuery] with a verb, an optional table and an
    expression out, or a parse error).  The double reads the verb and the
    word after [FROM] (or after the verb, for the others) and keeps the query
    text as the expression. *)
Definition parseSQL (query : string) : JS.result (SqlParse string) :=
  match JS.split " " query with
  | verb :: rest =>
      if String.eqb verb "SELECT" then inr (mkSqlParse "SELECT" (from_clause rest) query)
      else if String.eqb verb "DESCRIBE" then inr (mkSqlParse "DESCRIBE" (head rest) query)
      else if String.eqb verb "UPDATE" then inr (mkSqlParse "UPDATE" (head rest) query)
      else JS.throw (JS.Error ("SQL parse error: unexpected " +:+ verb))
  | [] => JS.throw (JS.Error "SQL parse error")
  end.

(** The introspection strategies named by the usage text (lines 41-44). *)
Definition strategies : list string :=
  ["segment-metadata-fallback"; "segment-metadata-only"; "datasource-get"].

(** The double of the check of [External.fromJS]: an introspection strategy
    that is given (not empty) and is none of the three of the usage text is
    refused. *)
Definition fromJS_throws (js : External) : option JS.exn :=
  let strategy := introspectionStrategy js in
  if JS.truthy strategy && negb (bool_decide (JS.text strategy ∈ strategies)) then
    Some (JS.Error ("invalid introspectionStrategy '" +:+ JS.text strategy +:+ "'"))
  else None.

#[export] Instance api : QueryApi := {|
  Expression := string;
  Expression_parseSQL := parseSQL;
  JSON_stringify := fun e => e;
  External_fromJS_throws := fromJS_throws
|}.

End SqlDouble.

(** ** Command lines

    Flags of some invocations, as nopt returns them, on which the pipeline
    is run below. *)

Module Examples.

(** [-h druid:8082 -q "SELECT * FROM bar"] *)
Definition select_bar : Parsed.t :=
  {|
     Parsed.host := Some "druid:8082";
     Parsed.druid := None;
     Parsed.data_source := None;
     Parsed.help := false;
     Parsed.query := Some "SELECT * FROM bar";
     Parsed.interval := None;
     Parsed.version := false;
     Parsed.verbose := false;
     Parsed.timeout := None;
     Parsed.retry := None;
     Parsed.concurrent := None;
     Parsed.output := None;
     Parsed.allow := None;
     Parsed.force_unique := None;
     Parsed.force_histogram := None;
     Parsed.skip_cache := false;
     Parsed.introspection_strategy := None;
     Parsed.argv_original := ["-h"; "druid:8082"; "-q"; "SELECT * FROM bar"]
  |}.

(** [-h druid:8082 -d foo -q "SELECT * FROM bar"] *)
Definition select_bar_as_foo : Parsed.t :=
  {|
     Parsed.host := Some "druid:8082";
     Parsed.druid := None;
     Parsed.data_source := Some "foo";
     Parsed.help := false;
     Parsed.query := Some "SELECT * FROM bar";
     Parsed.interval := None;
     Parsed.version := false;
     Parsed.verbose := false;
     Parsed.timeout := None;
     Parsed.retry := None;
     Parsed.concurrent := None;
     Parsed.output := None;
     Parsed.allow := None;
     Parsed.force_unique := None;
     Parsed.force_histogram := None;
     Parsed.skip_cache := false;
     Parsed.introspection_strategy := None;
     Parsed.argv_original := ["-h"; "druid:8082"; "-d"; "foo"; "-q"; "SELECT * FROM bar"]
  |}.

(** [-h druid:8082 -q "SELECT 1"], a query that names no table. *)
Definition select_nothing : Parsed.t :=
  {|
     Parsed.host := Some "druid:8082";
     Parsed.druid := None;
     Parsed.data_source := None;
     Parsed.help := false;
     Parsed.query := Some "SELECT 1";
     Parsed.interval := None;
     Parsed.version := false;
     Parsed.verbose := false;
     Parsed.timeout := None;
     Parsed.retry := None;
     Parsed.concurrent := None;
     Parsed.output := None;
     Parsed.allow := None;
     Parsed.force_unique := None;
     Parsed.force_histogram := None;
     Parsed.skip_cache := false;
     Parsed.introspection_strategy := None;
     Parsed.argv_original := ["-h"; "druid:8082"; "-q"; "SELECT 1"]
  |}.

(** [--version -o xml] *)
Definition version_xml : Parsed.t :=
  {|
     Parsed.host := None;
     Parsed.druid := None;
     Parsed.data_source := None;
     Parsed.help := false;
     Parsed.query := None;
     Parsed.interval := None;
     Parsed.version := true;
     Parsed.verbose := false;
     Parsed.timeout := None;
     Parsed.retry := None;
     Parsed.concurrent := None;
     Parsed.output := Some "xml";
     Parsed.allow := None;
     Parsed.force_unique := None;
     Parsed.force_histogram := None;
     Parsed.skip_cache := false;
     Parsed.introspection_strategy := None;
     Parsed.argv_original := ["--version"; "-o"; "xml"]
  |}.

(** [-h druid:8082 -q "SELECT * FROM bar" -o XML] *)
Definition select_bar_xml : Parsed.t :=
  {|
     Parsed.host := Some "druid:8082";
     Parsed.druid := None;
     Parsed.data_source := None;
     Parsed.help := false;
     Parsed.query := Some "SELECT * FROM bar";
     Parsed.interval := None;
     Parsed.version := false;
     Parsed.verbose := false;
     Parsed.timeout := None;
     Parsed.retry := None;
     Parsed.concurrent := None;
     Parsed.output := Some "XML";
     Parsed.allow := None;
     Parsed.force_unique := None;
     Parsed.force_histogram := None;
     Parsed.skip_cache := false;
     Parsed.introspection_strategy := None;
     Parsed.argv_original := ["-h"; "druid:8082"; "-q"; "SELECT * FROM bar"; "-o"; "XML"]
  |}.

(** [-q "SELECT * FROM bar" -o xml], without a host. *)
Definition xml_no_host : Parsed.t :=
  {|
     Parsed.host := None;
     Parsed.druid := None;
     Parsed.data_source := None;
     Parsed.help := false;
     Parsed.query := Some "SELECT * FROM bar";
     Parsed.interval := None;
     Parsed.version := false;
     Parsed.verbose := false;
     Parsed.timeout := None;
     Parsed.retry := None;
     Parsed.concurrent := None;
     Parsed.output := Some "xml";
     Parsed.allow := None;
     Parsed.force_unique := None;
     Parsed.force_histogram := None;
     Parsed.skip_cache := false;
     Parsed.introspection_strategy := None;
     Parsed.argv_original := ["-q"; "SELECT * FROM bar"; "-o"; "xml"]
  |}.

(** [-q "SELECT * FROM bar"], without a host. *)
Definition no_host : Parsed.t :=
  {|
     Parsed.host := None;
     Parsed.druid := None;
     Parsed.data_source := None;
     Parsed.help := false;
     Parsed.query := Some "SELECT * FROM bar";
     Parsed.interval := None;
     Parsed.version := false;
     Parsed.verbose := false;
     Parsed.timeout := None;
     Parsed.retry := None;
     Parsed.concurrent := None;
     Parsed.output := None;
     Parsed.allow := None;
     Parsed.force_unique := None;
     Parsed.force_histogram := None;
     Parsed.skip_cache := false;
     Parsed.introspection_strategy := None;
     Parsed.argv_original := ["-q"; "SELECT * FROM bar"]
  |}.

(** [-h druid:8082 -q "SELECT * FROM bar" -fu a -fu b -fh c -fu a] *)
Definition forced : Parsed.t :=
  {|
     Parsed.host := Some "druid:8082";
     Parsed.druid := None;
     Parsed.data_source := None;
     Parsed.help := false;
     Parsed.query := Some "SELECT * FROM bar";
     Parsed.interval := None;
     Parsed.version := false;
     Parsed.verbose := false;
     Parsed.timeout := None;
     Parsed.retry := None;
     Parsed.concurrent := None;
     Parsed.output := None;
     Parsed.allow := None;
     Parsed.force_unique := Some ["a"; "b"; "a"];
     Parsed.force_histogram := Some ["c"];
     Parsed.skip_cache := false;
     Parsed.introspection_strategy := None;
     Parsed.argv_original := ["-h"; "druid:8082"; "-q"; "SELECT * FROM bar"; "-fu"; "a"; "-fu"; "b"; "-fh"; "c"; "-fu"; "a"]
  |}.

(** [-h druid:8082 -q "SELECT * FROM bar" -i 2024-01-01T00:00:00Z/P1D] *)
Definition forward_interval : Parsed.t :=
  {|
     Parsed.host := Some "druid:8082";
     Parsed.druid := None;
     Parsed.data_source := None;
     Parsed.help := false;
     Parsed.query := Some "SELECT * FROM bar";
     Parsed.interval := Some "2024-01-01T00:00:00Z/P1D";
     Parsed.version := false;
     Parsed.verbose := false;
     Parsed.timeout := None;
     Parsed.retry := None;
     Parsed.concurrent := None;
     Parsed.output := None;
     Parsed.allow := None;
     Parsed.force_unique := None;
     Parsed.force_histogram := None;
     Parsed.skip_cache := false;
     Parsed.introspection_strategy := None;
     Parsed.argv_original :=
       ["-h"; "druid:8082"; "-q"; "SELECT * FROM bar"; "-i"; "2024-01-01T00:00:00Z/P1D"]
  |}.

(** [-h druid:8082 -q "SELECT * FROM bar" -v -r 5 -c 1] *)
Definition retry5 : Parsed.t :=
  {|
     Parsed.host := Some "druid:8082";
     Parsed.druid := None;
     Parsed.data_source := None;
     Parsed.help := false;
     Parsed.query := Some "SELECT * FROM bar";
     Parsed.interval := None;
     Parsed.version := false;
     Parsed.verbose := true;
     Parsed.timeout := None;
     Parsed.retry := Some 5;
     Parsed.concurrent := Some 1;
     Parsed.output := None;
     Parsed.allow := None;
     Parsed.force_unique := None;
     Parsed.force_histogram := None;
     Parsed.skip_cache := false;
     Parsed.introspection_strategy := None;
     Parsed.argv_original := ["-h"; "druid:8082"; "-q"; "SELECT * FROM bar"; "-v"; "-r"; "5"; "-c"; "1"]
  |}.

End Examples.

(** ** What a run did *)

Section Observations.

Context {q : QueryApi}.

(** The requesters the factories returned, in the order of the calls. *)
Definition made (tr : list event) : list Requester :=
  omap (fun e => match e with requesterFactory r => Some r | _ => None end) tr.

(** The datasets built by [External.fromJS]. *)
Definition datasets (tr : list event) : list External :=
  omap (fun e => match e with External_fromJS js => Some js | _ => None end) tr.

(** The query strings given to the parser. *)
Definition queries (tr : list event) : list string :=
  omap (fun e => match e with parseSQL s => Some s | _ => None end) tr.

(** The binding contexts given to [compute]. *)
Definition contexts (tr : list event) : list (gmap string External) :=
  omap (fun e => match e with compute _ c _ => Some c | _ => None end) tr.

(** The calls to the engine, which are the calls that reach the network. *)
Definition engine_calls (tr : list event) : list event :=
  List.filter (fun e => match e with introspect _ _ | compute _ _ _ => true | _ => false end) tr.

End Observations.

(** ** The decorator chain in the words of the spec

    Section 4.2 lists the optional layers from innermost to outermost and
    section 9 asks for an ordered list of transport-transforming functions
    applied left to right. *)

Definition layers (retry : Z) (verbose : bool) (concurrent : Z)
    : list (Requester -> Requester) :=
  (if 0 <? retry then [fun r => retryRequester r retry 500 false] else []) ++
  (if verbose then [verboseRequester] else []) ++
  (if 0 <? concurrent then [fun r => concurrentLimitRequester r concurrent] else []).

(** The bare transport and each wrapping of it, innermost first. *)
Fixpoint chain (bare : Requester) (ls : list (Requester -> Requester)) : list Requester :=
  match ls with
  | [] => [bare]
  | layer :: rest => bare :: chain (layer bare) rest
  end.

Definition decorate (bare : Requester) (ls : list (Requester -> Requester)) : Requester :=
  foldl (fun r layer => layer r) bare ls.

(** ** The retry layer

    plywood's [helper.retryRequesterFactory] is imported by the file and not
    part of it; what a retry requester does with a request is modelled here
    from section 4.2 of the spec. *)

Module RetryLayer.

Inductive failure : Type := timed_out | transport_error.

Inductive outcome : Type :=
| resolved
| rejected (f : failure).

(** What the layer does: a dispatch to the transport beneath, or a wait. *)
Inductive action : Type :=
| dispatch
| wait (ms : Z).

Definition is_timeout (f : failure) : bool :=
  match f with timed_out => true | transport_error => false end.

(** Modelled from the spec: plywood's [helper.retryRequesterFactory].
    Section 4.2: on a failure of the transport beneath, the layer retries up
    to [retry] additional times with a fixed delay between attempts; a
    failure classified as a timeout is not retried unless [retryOnTimeout]
    is set, and is passed through.  [beneath n] is the answer of the
    transport beneath to its [n]-th dispatch and [retries] the number of
    retries still allowed. *)
Fixpoint attempt (retries : nat) (delay : Z) (retryOnTimeout : bool)
    (beneath : nat -> outcome) (n : nat) : list action * outcome :=
  match beneath n with
  | resolved => ([dispatch], resolved)
  | rejected f =>
      match retries with
      | O => ([dispatch], rejected f)
      | S k =>
          if is_timeout f && negb retryOnTimeout then ([dispatch], rejected f)
          else
            let '(acts, o) := attempt k delay retryOnTimeout beneath (S n) in
            (dispatch :: wait delay :: acts, o)
      end
  end.

(** A request through a retry requester; the other requesters are not
    retry layers. *)
Definition request (r : Requester) (beneath : nat -> outcome)
    : option (list action * outcome) :=
  match r with
  | retryRequester _ retry delay retryOnTimeout =>
      Some (attempt (Z.to_nat retry) delay retryOnTimeout beneath 0)
  | _ => None
  end.

Definition dispatches (acts : list action) : nat :=
  length (List.filter (fun a => match a with dispatch => true | _ => false end) acts).

Definition waits (acts : list action) : list Z :=
  omap (fun a => match a with wait ms => Some ms | _ => None end) acts.

End RetryLayer.

(** ** The callbacks of the engine call

    Lines 306-337: what [run] does, without a [command], when the promise of
    [compute] settles.  plywood's [Dataset] is a collaborator: its JSON text,
    its conversion to and from a plain object, its CSV and TSV texts and its
    flattening are taken as an interface. *)

Class DatasetApi : Type := {
  Dataset : Type;
  DatasetJS : Type;
  Flattened : Type;
  JSON_stringify_data : Dataset -> string;
  Dataset_toJS : Dataset -> DatasetJS;
  Dataset_fromJS : DatasetJS -> Dataset;
  Dataset_toCSV : Dataset -> string;
  Dataset_toTSV : Dataset -> string;
  Dataset_flatten : Dataset -> Flattened;
  JSON_stringify_flat : Flattened -> string
}.

Section Callbacks.

Context {q : QueryApi} {d : DatasetApi}.

(** The [switch (output)] of lines 309-332. *)
Definition outputStr (output : string) (data : Dataset) : string :=
  if String.eqb output "json" then JSON_stringify_data data
  else if String.eqb output "csv" then
    let data := Dataset_fromJS (Dataset_toJS data) in
    Dataset_toCSV data
  else if String.eqb output "tsv" then
    let data := Dataset_fromJS (Dataset_toJS data) in
    Dataset_toTSV data
  else if String.eqb output "flat" then
    let data := Dataset_fromJS (Dataset_toJS data) in
    JSON_stringify_flat (Dataset_flatten data)
  else "Unknown output type".

(** The fulfilment callback of lines 307-334. *)
Definition on_data (output : string) (data : Dataset) : list event :=
  [console_log [outputStr output data]].

(** The rejection callback of lines 335-337. *)
Definition on_error (err : JS.exn) : list event :=
  [console_log ["There was an error getting the data: " +:+ JS.message err]].

End Callbacks.

Section CallbackObservations.

Context {q : QueryApi}.

(** The output formats given to the fulfilment callbacks of a run. *)
Definition rendered (tr : list event) : list string :=
  omap (fun e => match e with compute _ _ (print_data o) => Some o | _ => None end) tr.

(** What a run wrote to the console: the usage, the version or a line. *)
Definition reports (tr : list event) : list event :=
  List.filter
    (fun e => match e with printUsage | printVersion | console_log _ => true | _ => false end)
    tr.

End CallbackObservations.

(** Modelled from the spec: plywood's [Dataset] is not part of the file.
    Section 4.4 has the result as an ordered sequence of rows and [csv] /
    [tsv] as the flat table serialised with the field delimiter.  The
    stand-in is a table of cells, rendered with the delimiter of the format;
    the conversion to and from a plain object keeps the table. *)
Module DatasetDouble.

Definition table : Type := list (list string).

Fixpoint join (sep : string) (cells : list string) : string :=
  match cells with
  | [] => EmptyString
  | [c] => c
  | c :: rest => c +:+ sep +:+ join sep rest
  end.

Definition delimited (sep : string) (t : table) : string :=
  join (String (ascii_of_nat 10) EmptyString) (map (join sep) t).

#[export] Instance api : DatasetApi :=
  Build_DatasetApi table table table
    (delimited " ") (fun t => t) (fun t => t)
    (delimited ",") (delimited (String (ascii_of_nat 9) EmptyString))
    (fun t => t) (delimited " ").

End DatasetDouble.

(** ** More command lines *)

Module CommandLines.

(** [-h druid:8082 -q "DESCRIBE bar"] *)
Definition describe_bar : Parsed.t :=
  {|
     Parsed.host := Some "druid:8082";
     Parsed.druid := None;
     Parsed.data_source := None;
     Parsed.help := false;
     Parsed.query := Some "DESCRIBE bar";
     Parsed.interval := None;
     Parsed.version := false;
     Parsed.verbose := false;
     Parsed.timeout := None;
     Parsed.retry := None;
     Parsed.concurrent := None;
     Parsed.output := None;
     Parsed.allow := None;
     Parsed.force_unique := None;
     Parsed.force_histogram := None;
     Parsed.skip_cache := false;
     Parsed.introspection_strategy := None;
     Parsed.argv_original := ["-h"; "druid:8082"; "-q"; "DESCRIBE bar"]
  |}.

(** [--druid broker:8082 -h other:1 -q "SELECT * FROM bar" -t 5000 --skip-cache -a eternity
    -a select -i P1D/2024-01-02T00:00:00Z -o CSV --introspection-strategy datasource-get] *)
Definition broker_csv : Parsed.t :=
  {|
     Parsed.host := Some "other:1";
     Parsed.druid := Some "broker:8082";
     Parsed.data_source := None;
     Parsed.help := false;
     Parsed.query := Some "SELECT * FROM bar";
     Parsed.interval := Some "P1D/2024-01-02T00:00:00Z";
     Parsed.version := false;
     Parsed.verbose := false;
     Parsed.timeout := Some 5000;
     Parsed.retry := None;
     Parsed.concurrent := None;
     Parsed.output := Some "CSV";
     Parsed.allow := Some ["eternity"; "select"];
     Parsed.force_unique := None;
     Parsed.force_histogram := None;
     Parsed.skip_cache := true;
     Parsed.introspection_strategy := Some "datasource-get";
     Parsed.argv_original :=
       ["--druid"; "broker:8082"; "-h"; "other:1"; "-q"; "SELECT * FROM bar"; "-t";
        "5000"; "--skip-cache"; "-a"; "eternity"; "-a"; "select"; "-i";
        "P1D/2024-01-02T00:00:00Z"; "-o"; "CSV"; "--introspection-strategy";
        "datasource-get"]
  |}.

(** [-h druid:8082 -q "SELECT * FROM bar" -a eternity -a nothing -a other] *)
Definition bad_allow : Parsed.t :=
  {|
     Parsed.host := Some "druid:8082";
     Parsed.druid := None;
     Parsed.data_source := None;
     Parsed.help := false;
     Parsed.query := Some "SELECT * FROM bar";
     Parsed.interval := None;
     Parsed.version := false;
     Parsed.verbose := false;
     Parsed.timeout := None;
     Parsed.retry := None;
     Parsed.concurrent := None;
     Parsed.output := None;
     Parsed.allow := Some ["eternity"; "nothing"; "other"];
     Parsed.force_unique := None;
     Parsed.force_histogram := None;
     Parsed.skip_cache := false;
     Parsed.introspection_strategy := None;
     Parsed.argv_original :=
       ["-h"; "druid:8082"; "-q"; "SELECT * FROM bar"; "-a"; "eternity"; "-a";
        "nothing"; "-a"; "other"]
  |}.

(** [-h druid:8082] *)
Definition no_query : Parsed.t :=
  {|
     Parsed.host := Some "druid:8082";
     Parsed.druid := None;
     Parsed.data_source := None;
     Parsed.help := false;
     Parsed.query := None;
     Parsed.interval := None;
     Parsed.version := false;
     Parsed.verbose := false;
     Parsed.timeout := None;
     Parsed.retry := None;
     Parsed.concurrent := None;
     Parsed.output := None;
     Parsed.allow := None;
     Parsed.force_unique := None;
     Parsed.force_histogram := None;
     Parsed.skip_cache := false;
     Parsed.introspection_strategy := None;
     Parsed.argv_original := ["-h"; "druid:8082"]
  |}.

(** [-h druid:8082 -q "DROP bar"] *)
Definition drop_bar : Parsed.t :=
  {|
     Parsed.host := Some "druid:8082";
     Parsed.druid := None;
     Parsed.data_source := None;
     Parsed.help := false;
     Parsed.query := Some "DROP bar";
     Parsed.interval := None;
     Parsed.version := false;
     Parsed.verbose := false;
     Parsed.timeout := None;
     Parsed.retry := None;
     Parsed.concurrent := None;
     Parsed.output := None;
     Parsed.allow := None;
     Parsed.force_unique := None;
     Parsed.force_histogram := None;
     Parsed.skip_cache := false;
     Parsed.introspection_strategy := None;
     Parsed.argv_original := ["-h"; "druid:8082"; "-q"; "DROP bar"]
  |}.

(** [-h druid:8082 -q "UPDATE bar"] *)
Definition update_bar : Parsed.t :=
  {|
     Parsed.host := Some "druid:8082";
     Parsed.druid := None;
     Parsed.data_source := None;
     Parsed.help := false;
     Parsed.query := Some "UPDATE bar";
     Parsed.interval := None;
     Parsed.version := false;
     Parsed.verbose := false;
     Parsed.timeout := None;
     Parsed.retry := None;
     Parsed.concurrent := None;
     Parsed.output := None;
     Parsed.allow := None;
     Parsed.force_unique := None;
     Parsed.force_histogram := None;
     Parsed.skip_cache := false;
     Parsed.introspection_strategy := None;
     Parsed.argv_original := ["-h"; "druid:8082"; "-q"; "UPDATE bar"]
  |}.

(** [--help --version] *)
Definition help_version : Parsed.t :=
  {|
     Parsed.host := None;
     Parsed.druid := None;
     Parsed.data_source := None;
     Parsed.help := true;
     Parsed.query := None;
     Parsed.interval := None;
     Parsed.version := true;
     Parsed.verbose := false;
     Parsed.timeout := None;
     Parsed.retry := None;
     Parsed.concurrent := None;
     Parsed.output := None;
     Parsed.allow := None;
     Parsed.force_unique := None;
     Parsed.force_histogram := None;
     Parsed.skip_cache := false;
     Parsed.introspection_strategy := None;
     Parsed.argv_original := ["--help"; "--version"]
  |}.

(** [-h druid:8082 -q "SELECT * FROM bar" -r 0 -c 0] *)
Definition bare_only : Parsed.t :=
  {|
     Parsed.host := Some "druid:8082";
     Parsed.druid := None;
     Parsed.data_source := None;
     Parsed.help := false;
     Parsed.query := Some "SELECT * FROM bar";
     Parsed.interval := None;
     Parsed.version := false;
     Parsed.verbose := false;
     Parsed.timeout := None;
     Parsed.retry := Some 0;
     Parsed.concurrent := Some 0;
     Parsed.output := None;
     Parsed.allow := None;
     Parsed.force_unique := None;
     Parsed.force_histogram := None;
     Parsed.skip_cache := false;
     Parsed.introspection_strategy := None;
     Parsed.argv_original :=
       ["-h"; "druid:8082"; "-q"; "SELECT * FROM bar"; "-r"; "0"; "-c"; "0"]
  |}.

(** [-h druid:8082 -q "SELECT * FROM bar" --introspection-strategy bogus] *)
Definition bogus_strategy : Parsed.t :=
  {|
     Parsed.host := Some "druid:8082";
     Parsed.druid := None;
     Parsed.data_source := None;
     Parsed.help := false;
     Parsed.query := Some "SELECT * FROM bar";
     Parsed.interval := None;
     Parsed.version := false;
     Parsed.verbose := false;
     Parsed.timeout := None;
     Parsed.retry := None;
     Parsed.concurrent := None;
     Parsed.output := None;
     Parsed.allow := None;
     Parsed.force_unique := None;
     Parsed.force_histogram := None;
     Parsed.skip_cache := false;
     Parsed.introspection_strategy := Some "bogus";
     Parsed.argv_original :=
       ["-h"; "druid:8082"; "-q"; "SELECT * FROM bar";
        "--introspection-strategy"; "bogus"]
  |}.

End CommandLines.

(** * Properties *)

(** ** Strings *)

Lemma length_split (sep : ascii) (s : string) :
  length (JS.split sep s) = S (JS.occurrences sep s).
Proof.
  induction s as [|c s IH]; simpl; [reflexivity|].
  destruct (Ascii.eqb c sep); simpl; [now rewrite IH|].
  destruct (JS.split sep s); simpl in *; congruence.
Qed.

Lemma split_plain (sep : ascii) (s : string) :
  JS.occurrences sep s = O -> JS.split sep s = [s].
Proof.
  induction s as [|c s IH]; simpl; [reflexivity|].
  destruct (Ascii.eqb c sep); [discriminate|].
  intros H. now rewrite (IH H).
Qed.

Lemma split_at (sep : ascii) (a b : string) :
  JS.occurrences sep a = O ->
  JS.split sep (a +:+ String sep b) = a :: JS.split sep b.
Proof.
  induction a as [|c a IH]; simpl.
  - intros _. now rewrite Ascii.eqb_refl.
  - destruct (Ascii.eqb c sep); [discriminate|].
    intros H. now rewrite (IH H).
Qed.

Lemma split_pair (sep : ascii) (a b : string) :
  JS.occurrences sep a = O -> JS.occurrences sep b = O ->
  JS.split sep (a +:+ String sep b) = [a; b].
Proof.
  intros Ha Hb. now rewrite split_at, (split_plain _ _ Hb).
Qed.

(** ** The reference calendar *)

Module RefTimeFacts.
Import RefTime.

(** The civil date of a day number is a date of the calendar, and its day
    number is the one it came from. *)
Lemma civil_from_days_spec (z : Z) :
  let '(y, m, d) := civil_from_days z in
  days_from_civil y m d = z /\ 1 <= m <= 12 /\ 1 <= d <= 31.
Proof.
  unfold civil_from_days, days_from_civil.
  set (z' := z + 719468).
  set (era := z' / 146097).
  set (doe := z' - era * 146097).
  assert (Hz : z = era * 146097 + doe - 719468) by (subst doe z'; lia).
  assert (Hdoe : 0 <= doe < 146097).
  { subst doe era. pose proof (Z.mod_pos_bound z' 146097 ltac:(lia)) as H.
    rewrite Z.mod_eq in H by lia. lia. }
  clearbody doe era. clear z'.
  set (yoe := (doe - doe / 1460 + doe / 36524 - doe / 146096) / 365).
  assert (Hyoe : 0 <= yoe <= 399) by (subst yoe; Z.div_mod_to_equations; lia).
  set (doy := doe - (365 * yoe + yoe / 4 - yoe / 100)).
  assert (Hdoy : 0 <= doy <= 365) by (subst doy yoe; Z.div_mod_to_equations; lia).
  assert (Hdoe' : doe = yoe * 365 + yoe / 4 - yoe / 100 + doy) by (subst doy; lia).
  clearbody doy yoe.
  set (mp := (5 * doy + 2) / 153).
  assert (Hmp : 0 <= mp <= 11) by (subst mp; Z.div_mod_to_equations; lia).
  set (d := doy - (153 * mp + 2) / 5 + 1).
  assert (Hd : 1 <= d <= 31) by (subst d mp; Z.div_mod_to_equations; lia).
  assert (Hdoy' : doy = (153 * mp + 2) / 5 + d - 1) by (subst d; lia).
  clearbody d mp.
  destruct (Z.ltb_spec mp 10).
  - destruct (Z.leb_spec (mp + 3) 2); [lia|].
    destruct (Z.ltb_spec 2 (mp + 3)); [|lia].
    replace (mp + 3 - 3) with mp by lia.
    replace ((yoe + era * 400) / 400) with era by (Z.div_mod_to_equations; lia).
    split; [|lia].
    replace (yoe + era * 400 - era * 400) with yoe by lia. lia.
  - destruct (Z.leb_spec (mp - 9) 2); [|lia].
    destruct (Z.ltb_spec 2 (mp - 9)); [lia|].
    replace (mp - 9 + 9) with mp by lia.
    replace (yoe + era * 400 + 1 - 1) with (yoe + era * 400) by lia.
    replace ((yoe + era * 400) / 400) with era by (Z.div_mod_to_equations; lia).
    split; [|lia].
    replace (yoe + era * 400 - era * 400) with yoe by lia. lia.
Qed.

(** [setUTCDate] by [days] moves the time value by whole days. *)
Lemma shift_days (days t : Z) :
  shift_calendar 0 0 days t = t + days * msPerDay.
Proof.
  unfold shift_calendar, MakeDay.
  pose proof (civil_from_days_spec (t / msPerDay)) as H.
  destruct (civil_from_days (t / msPerDay)) as [[y m] d].
  destruct H as (H & Hm & _).
  replace ((m - 1 + 0) / 12) with 0 by (Z.div_mod_to_equations; lia).
  replace ((m - 1 + 0) mod 12 + 1) with m by (Z.div_mod_to_equations; lia).
  replace (y + 0 + 0) with y by lia.
  assert (E : days_from_civil y m 1 + (d + days) - 1 = t / msPerDay + days).
  { rewrite <- H. unfold days_from_civil. lia. }
  rewrite E. unfold msPerDay in *. Z.div_mod_to_equations. lia.
Qed.

(** A duration of weeks, days, hours, minutes and seconds moves an instant
    by its length in milliseconds. *)
Lemma move_fixed_length (d : Duration) (step t : Z) :
  year d = 0 -> month d = 0 ->
  move_ms d step t = t + step * fixed_length d.
Proof.
  destruct d as [y mo w d h mi sec]. cbn [year month]. intros -> ->.
  unfold move_ms, fixed_length. cbn [year month week day hour minute second]. cbn [Z.eqb].
  rewrite !shift_days. unfold msPerDay.
  destruct (Z.eqb_spec w 0), (Z.eqb_spec d 0), (Z.eqb_spec h 0), (Z.eqb_spec mi 0),
    (Z.eqb_spec sec 0); subst; lia.
Qed.

End RefTimeFacts.

(** ** [parseIntervalString] *)

Section IntervalParts.

Context {api : TimeApi}.

(** With at most two parts, the first and second part of a split. *)
Lemma parts_of_pair (now : Z) (p0 p1 : string) :
  JS.occurrences "/" p0 = O -> JS.occurrences "/" p1 = O ->
  parseIntervalString now (p0 +:+ String "/" p1) =
    if bool_decide (JS.char0 p0 = Some "P"%char) then
      duration ← Duration_fromJS p0;
      start ← Duration_move duration (Some (new_Date p1)) UTC (-1);
      mret (TimeRange.fromJS start (Some (new_Date p1)))
    else if bool_decide (JS.char0 p1 = Some "P"%char) then
      duration ← Duration_fromJS p1;
      end_ ← Duration_move duration None UTC 1;
      mret (TimeRange.fromJS (Some (new_Date p0)) end_)
    else mret (TimeRange.fromJS (Some (new_Date p0)) (Some (new_Date p1))).
Proof.
  intros H0 H1. unfold parseIntervalString.
  rewrite (split_pair _ _ _ H0 H1). reflexivity.
Qed.

Lemma parts_of_single (now : Z) (p0 : string) :
  JS.occurrences "/" p0 = O ->
  JS.char0 p0 = Some "P"%char ->
  parseIntervalString now p0 =
    duration ← Duration_fromJS p0;
    start ← Duration_move duration (Some (new_Date (toISOString now))) UTC (-1);
    mret (TimeRange.fromJS start (Some (new_Date (toISOString now)))).
Proof.
  intros H0 HP. unfold parseIntervalString.
  rewrite (split_plain _ _ H0). simpl.
  now rewrite bool_decide_eq_true_2.
Qed.

End IntervalParts.

Section IntervalProperties.

Context {api : TimeApi}.

(** C7: an interval string with more than one '/' makes [parseIntervalString]
    throw the error "Can not parse string ..."; no time range is returned. *)
Theorem parseIntervalString_too_many_parts (now : Z) (str : string) :
  (2 <= JS.occurrences "/" str)%nat ->
  parseIntervalString now str = inl (JS.Error ("Can not parse string " +:+ str)).
Proof.
  intros H. unfold parseIntervalString.
  rewrite length_split.
  destruct (Nat.ltb_spec 2 (S (JS.occurrences "/" str))); [reflexivity | lia].
Qed.

(** C6: for a string duration/instant whose left side begins with 'P' and is
    the duration [d], the range ends at the right instant and starts at that
    end moved back by [d] in UTC; with the left side alone the end is the
    current time.  In the reference library the start of a duration without
    years and months is the end minus the length of the duration, and
    "P1D/2024-01-02T00:00:00Z" is the range from 2024-01-01T00:00:00Z to
    2024-01-02T00:00:00Z. *)
Theorem parseIntervalString_duration_instant (now : Z) (p0 p1 : string) (d : Duration)
    (s s' : option Date) :
  JS.occurrences "/" p0 = O -> JS.occurrences "/" p1 = O ->
  JS.char0 p0 = Some "P"%char ->
  Duration_fromJS p0 = inr d ->
  Duration_move d (Some (new_Date p1)) UTC (-1) = inr s ->
  Duration_move d (Some (new_Date (toISOString now))) UTC (-1) = inr s' ->
  parseIntervalString now (p0 +:+ "/" +:+ p1) =
    inr {| start := s; end_ := Some (new_Date p1) |} /\
  parseIntervalString now p0 =
    inr {| start := s'; end_ := Some (new_Date (toISOString now)) |} /\
  (forall (d' : RefTime.Duration) (t : Z),
     RefTime.Duration_fromJS p0 = inr d' ->
     RefTime.year d' = 0 -> RefTime.month d' = 0 ->
     RefTime.new_Date p1 = DateMs t ->
     parseIntervalString (api := RefTime.api) now (p0 +:+ "/" +:+ p1) =
       inr {| start := Some (RefTime.TimeClip (t - RefTime.fixed_length d'));
              end_ := Some (DateMs t) |}) /\
  parseIntervalString (api := RefTime.api) now "P1D/2024-01-02T00:00:00Z" =
    inr {| start := Some (RefTime.new_Date "2024-01-01T00:00:00Z");
           end_ := Some (RefTime.new_Date "2024-01-02T00:00:00Z") |} /\
  RefTime.new_Date "2024-01-01T00:00:00Z" = DateMs 1704067200000 /\
  RefTime.new_Date "2024-01-02T00:00:00Z" = DateMs (1704067200000 + 86400000).
Proof.
  intros H0 H1 HP Hd Hs Hs'. split; [|split; [|split; [|repeat split]]].
  - change (p0 +:+ "/" +:+ p1) with (p0 +:+ String "/" p1).
    rewrite (parts_of_pair _ _ _ H0 H1), bool_decide_eq_true_2 by exact HP.
    rewrite Hd. simpl. rewrite Hs. reflexivity.
  - rewrite (parts_of_single _ _ H0 HP), Hd. simpl. rewrite Hs'. reflexivity.
  - intros d' t Hd' Hy Hm Ht.
    change (p0 +:+ "/" +:+ p1) with (p0 +:+ String "/" p1).
    rewrite (parts_of_pair (api := RefTime.api) _ _ _ H0 H1),
      bool_decide_eq_true_2 by exact HP.
    cbn [Duration_fromJS new_Date Duration_move RefTime.api].
    rewrite Hd', Ht. cbn [mbind result_bind JS.bind mret result_ret RefTime.Duration_move].
    rewrite (RefTimeFacts.move_fixed_length d' (-1) t Hy Hm).
    replace (t + -1 * RefTime.fixed_length d') with (t - RefTime.fixed_length d') by lia.
    reflexivity.
Qed.

(** C1 (what the code does): for a string instant/duration the end is the
    duration moved from the [null] that [end] still holds, so it does not
    depend on the left instant; in the reference library
    "2024-01-01T00:00:00Z/P1D" throws a [TypeError] and returns no range. *)
Theorem parseIntervalString_instant_duration_null_end (now : Z) (p0 p1 : string)
    (d : Duration) :
  JS.occurrences "/" p0 = O -> JS.occurrences "/" p1 = O ->
  JS.char0 p0 <> Some "P"%char -> JS.char0 p1 = Some "P"%char ->
  Duration_fromJS p1 = inr d ->
  parseIntervalString now (p0 +:+ "/" +:+ p1) =
    (end_ ← Duration_move d None UTC 1;
     mret {| start := Some (new_Date p0); end_ := end_ |}) /\
  parseIntervalString (api := RefTime.api) now "2024-01-01T00:00:00Z/P1D" =
    inl (JS.TypeError "Cannot read property 'valueOf' of null").
Proof.
  intros H0 H1 HP0 HP1 Hd. split; [|reflexivity].
  change (p0 +:+ "/" +:+ p1) with (p0 +:+ String "/" p1).
  rewrite (parts_of_pair _ _ _ H0 H1).
  rewrite bool_decide_eq_false_2 by exact HP0.
  rewrite bool_decide_eq_true_2 by exact HP1.
  rewrite Hd. reflexivity.
Qed.

End IntervalProperties.

(** ** The blocks of [run] *)

Ltac m_simpl :=
  cbn [mbind M_mbind M_bind mret M_mret finish when call return_ app fst snd].

Section Blocks.

Context {api : TimeApi} {q : QueryApi}.

Lemma check_usage_cases (parsed : Parsed.t) (command : option Parsed.t) :
  ((command = None ->
    (length (Parsed.argv_original parsed) =? 0)%nat || Parsed.help parsed = false) /\
   check_usage parsed command = ([], Next tt)) \/
  (command = None /\
   (length (Parsed.argv_original parsed) =? 0)%nat || Parsed.help parsed = true /\
   check_usage parsed command = ([printUsage], Return undefined)).
Proof.
  unfold check_usage. destruct command as [c|].
  - left. split; [discriminate | reflexivity].
  - destruct (_ || _); [right | left]; auto.
Qed.

Lemma check_version_cases (parsed : Parsed.t) :
  (Parsed.version parsed = false /\ check_version parsed = ([], Next tt)) \/
  (Parsed.version parsed = true /\
   check_version parsed = ([printVersion], Return undefined)).
Proof. unfold check_version. destruct (Parsed.version parsed); auto. Qed.

(** The loop over the allow values stops at the first unexpected one. *)
Lemma allow_loop (l : list string) :
  let body := fun allow : string =>
    when (negb (allowed allow))
      (call (console_log ["Unexpected allow"; allow]);; return_ undefined) in
  (forallb allowed l = true /\ for_of l body = ([], Next tt)) \/
  (exists allow, forallb allowed l = false /\ allow ∈ l /\ allowed allow = false /\
     for_of l body = ([console_log ["Unexpected allow"; allow]], Return undefined)).
Proof.
  intros body. induction l as [|a l IH]; [left; auto|].
  cbn [for_of forallb]. unfold body at 2 4.
  destruct (allowed a) eqn:Ea; m_simpl.
  - destruct IH as [[Hl ->]|(b & Hl & Hb & Eb & ->)].
    + left. auto.
    + right. exists b. split; [exact Hl|]. split; [rewrite elem_of_cons; auto|]. auto.
  - right. exists a. split; [reflexivity|]. split; [rewrite elem_of_cons; auto|]. auto.
Qed.

Lemma get_allow_cases (parsed : Parsed.t) :
  let allows := default [] (Parsed.allow parsed) in
  (forallb allowed allows = true /\ get_allow parsed = ([], Next allows)) \/
  (exists allow, forallb allowed allows = false /\ allow ∈ allows /\
     allowed allow = false /\
     get_allow parsed = ([console_log ["Unexpected allow"; allow]], Return undefined)).
Proof.
  intros allows. unfold get_allow. fold allows.
  destruct (allow_loop allows) as [[Hl E]|(b & Hl & Hb & Eb & E)]; cbv zeta in E.
  - left. split; [exact Hl|]. now rewrite E.
  - right. exists b. do 3 (split; [assumption|]). now rewrite E.
Qed.

Lemma get_output_cases (parsed : Parsed.t) :
  let output := JS.toLowerCase (JS.or_default (Parsed.output parsed) "json") in
  (bad_output output = false /\ get_output parsed = ([], Next output)) \/
  (bad_output output = true /\
   get_output parsed =
     ([console_log ["output must be one of json, csv, tsv, or flat (is " +:+ output +:+ "})"]],
      Return undefined)).
Proof.
  intros output. unfold get_output. fold output. destruct (bad_output output); auto.
Qed.

Lemma get_host_cases (parsed : Parsed.t) :
  let host := JS.or_else (Parsed.druid parsed) (Parsed.host parsed) in
  (JS.truthy host = true /\ get_host parsed = ([], Next host)) \/
  (JS.truthy host = false /\
   get_host parsed = ([console_log ["must have a host"]], Return undefined)).
Proof. intros host. unfold get_host. fold host. destruct (JS.truthy host); auto. Qed.

(** Either the query is parsed to a SELECT or a DESCRIBE, or the block ends
    the run: without a query before the parser is called, with a rejected
    query after it. *)
Lemma get_sql_cases (parsed : Parsed.t) :
  let query := Parsed.query parsed in
  (exists sqlParse, JS.truthy query = true /\
     Expression_parseSQL (JS.text query) = inr sqlParse /\
     bad_verb (verb sqlParse) = false /\
     get_sql parsed = ([parseSQL (JS.text query)], Next sqlParse)) \/
  (JS.truthy query = false /\
   get_sql parsed =
     ([console_log ["no query found please use --query (-q) flag"]], Return undefined)) \/
  (exists line, JS.truthy query = true /\
     ((exists e, Expression_parseSQL (JS.text query) = inl e) \/
      (exists sqlParse, Expression_parseSQL (JS.text query) = inr sqlParse /\
                        bad_verb (verb sqlParse) = true)) /\
     get_sql parsed = ([parseSQL (JS.text query); console_log line], Return undefined)).
Proof.
  intros query. unfold get_sql. fold query.
  destruct (JS.truthy query) eqn:Hq; m_simpl; [|right; left; auto].
  destruct (Expression_parseSQL (JS.text query)) as [e|sp] eqn:Hp; m_simpl.
  - right. right. eexists. split; [reflexivity|]. split; [left; eauto | reflexivity].
  - destruct (bad_verb (verb sp)) eqn:Hv; m_simpl.
    + right. right. eexists. split; [reflexivity|]. split; [right; eauto | reflexivity].
    + left. exists sp. auto.
Qed.

Lemma log_expression_eq (verbose : bool) (e : Expression) :
  log_expression verbose e =
    (if verbose then
       [console_log ["Parsed query as the following plywood expression (as JSON):"];
        console_log [JSON_stringify e];
        console_log ["---------------------------"]]
     else [], Next tt).
Proof. destruct verbose; reflexivity. Qed.

Lemma get_dataSource_cases (parsed : Parsed.t) (sqlParse : SqlParse Expression) :
  let flag := Parsed.data_source parsed in
  (JS.truthy flag = true /\
   get_dataSource parsed sqlParse = ([], Next ("data", JS.text flag))) \/
  (JS.truthy flag = false /\ JS.truthy (table sqlParse) = true /\
   get_dataSource parsed sqlParse =
     ([], Next (JS.text (table sqlParse), JS.text (table sqlParse)))) \/
  (JS.truthy flag = false /\ JS.truthy (table sqlParse) = false /\
   get_dataSource parsed sqlParse =
     ([console_log ["must have data source"]], Return undefined)).
Proof.
  intros flag. unfold get_dataSource. fold flag.
  destruct (JS.truthy flag); [left; auto|].
  destruct (JS.truthy (table sqlParse)); right; [left | right]; auto.
Qed.

(** The factories are called along the chain of the layers, and the block
    leaves the outermost requester. *)
Lemma get_requester_eq (parsed : Parsed.t) (host : option string) (timeout : Z)
    (verbose : bool) :
  get_requester parsed host timeout verbose =
    (map requesterFactory
       (chain (druidRequester (JS.text host) timeout)
          (layers (default 2 (Parsed.retry parsed)) verbose
             (default 2 (Parsed.concurrent parsed)))),
     Next (decorate (druidRequester (JS.text host) timeout)
             (layers (default 2 (Parsed.retry parsed)) verbose
                (default 2 (Parsed.concurrent parsed))))).
Proof.
  unfold get_requester, layers.
  destruct (0 <? default 2 (Parsed.retry parsed)), verbose,
    (0 <? default 2 (Parsed.concurrent parsed)); reflexivity.
Qed.

Lemma get_filter_cases (now : Z) (parsed : Parsed.t) (timeAttribute : string) :
  let intervalString := Parsed.interval parsed in
  (exists filter, get_filter now parsed timeAttribute = ([], Next filter) /\
     (JS.truthy intervalString = false /\ filter = None \/
      exists interval, JS.truthy intervalString = true /\
        parseIntervalString now (JS.text intervalString) = inr interval /\
        filter = Some (In_ timeAttribute interval))) \/
  (exists e, JS.truthy intervalString = true /\
     parseIntervalString now (JS.text intervalString) = inl e /\
     get_filter now parsed timeAttribute =
       ([console_log ["Could not parse interval"; JS.text intervalString];
         console_log [JS.message e]], Return undefined)).
Proof.
  intros s. unfold get_filter. fold s.
  destruct (JS.truthy s); [|left; eauto].
  destruct (parseIntervalString now (JS.text s)) as [e|range]; [right | left]; eauto 8.
Qed.

(** [External.fromJS] returns the dataset or throws out of [run]. *)
Lemma get_dataset_cases (js : External) :
  (External_fromJS_throws js = None /\
   get_dataset js = ([External_fromJS js], Next js)) \/
  (exists e, External_fromJS_throws js = Some e /\
     get_dataset js = ([External_fromJS js], Return (thrown e))).
Proof. unfold get_dataset. destruct (External_fromJS_throws js); m_simpl; eauto. Qed.

(** ** Observations distribute over traces *)

Lemma made_app (a b : list event) : made (a ++ b) = made a ++ made b.
Proof. apply omap_app. Qed.

Lemma datasets_app (a b : list event) : datasets (a ++ b) = datasets a ++ datasets b.
Proof. apply omap_app. Qed.

Lemma contexts_app (a b : list event) : contexts (a ++ b) = contexts a ++ contexts b.
Proof. apply omap_app. Qed.

Lemma queries_app (a b : list event) : queries (a ++ b) = queries a ++ queries b.
Proof. apply omap_app. Qed.

Lemma engine_calls_app (a b : list event) :
  engine_calls (a ++ b) = engine_calls a ++ engine_calls b.
Proof. apply List.filter_app. Qed.

Lemma made_factories (l : list Requester) : made (map requesterFactory l) = l.
Proof. induction l; simpl; congruence. Qed.

Lemma datasets_factories (l : list Requester) : datasets (map requesterFactory l) = [].
Proof. induction l; simpl; congruence. Qed.

Lemma contexts_factories (l : list Requester) : contexts (map requesterFactory l) = [].
Proof. induction l; simpl; congruence. Qed.

Lemma queries_factories (l : list Requester) : queries (map requesterFactory l) = [].
Proof. induction l; simpl; congruence. Qed.

Lemma engine_calls_factories (l : list Requester) :
  engine_calls (map requesterFactory l) = [].
Proof. induction l; simpl; congruence. Qed.

Lemma made_cons (e : event) (l : list event) :
  made (e :: l) = match e with requesterFactory r => [r] | _ => [] end ++ made l.
Proof. destruct e; reflexivity. Qed.

Lemma datasets_cons (e : event) (l : list event) :
  datasets (e :: l) = match e with External_fromJS js => [js] | _ => [] end ++ datasets l.
Proof. destruct e; reflexivity. Qed.

Lemma contexts_cons (e : event) (l : list event) :
  contexts (e :: l) = match e with compute _ c _ => [c] | _ => [] end ++ contexts l.
Proof. destruct e; reflexivity. Qed.

Lemma queries_cons (e : event) (l : list event) :
  queries (e :: l) = match e with parseSQL s => [s] | _ => [] end ++ queries l.
Proof. destruct e; reflexivity. Qed.

Lemma engine_calls_cons (e : event) (l : list event) :
  engine_calls (e :: l) =
    match e with introspect _ _ | compute _ _ _ => [e] | _ => [] end ++ engine_calls l.
Proof. destruct e; reflexivity. Qed.

Lemma chain_not_nil (bare : Requester) (ls : list (Requester -> Requester)) :
  chain bare ls <> [].
Proof. destruct ls; discriminate. Qed.

End Blocks.

(** Membership in a list that is known. *)
Ltac inv_elem :=
  repeat match goal with
    | H : _ ∈ [] |- _ => apply elem_of_nil in H; contradiction
    | H : _ ∈ _ :: _ |- _ => apply elem_of_cons in H; destruct H as [H|H]; [subst|]
    end.

(** One case for each way through [run]: the blocks are taken in order, a
    block that returns closes its case with the trace so far. *)
Ltac run_blocks :=
  unfold run; cbv zeta;
  try match goal with p := default _ _ |- _ => fold p end;
  match goal with |- context [check_usage ?p ?c] =>
    destruct (check_usage_cases p c) as [[? ->]|(? & ? & ->)]; m_simpl
  end;
  [match goal with |- context [check_version ?p] =>
    destruct (check_version_cases p) as [[? ->]|[? ->]]; m_simpl
   end;
   [match goal with |- context [get_allow ?p] =>
      destruct (get_allow_cases p) as [[? ->]|(? & ? & ? & ? & ->)]; m_simpl
    end;
    [match goal with |- context [get_output ?p] =>
       destruct (get_output_cases p) as [[? ->]|[? ->]]; m_simpl
     end;
     [match goal with |- context [get_host ?p] =>
        destruct (get_host_cases p) as [[? ->]|[? ->]]; m_simpl
      end;
      [match goal with |- context [get_sql ?p] =>
         destruct (get_sql_cases p)
           as [(? & ? & ? & ? & ->)|[(? & ->)|(? & ? & ? & ->)]]; m_simpl
       end;
       [rewrite log_expression_eq; m_simpl;
        match goal with |- context [get_dataSource ?p ?s] =>
          destruct (get_dataSource_cases p s)
            as [[? ->]|[(? & ? & ->)|(? & ? & ->)]]; m_simpl
        end;
        [rewrite get_requester_eq; m_simpl;
         match goal with |- context [get_filter ?n ?p ?t] =>
           destruct (get_filter_cases n p t) as [(? & -> & ?)|(? & ? & ? & ->)]; m_simpl
         end
        |rewrite get_requester_eq; m_simpl;
         match goal with |- context [get_filter ?n ?p ?t] =>
           destruct (get_filter_cases n p t) as [(? & -> & ?)|(? & ? & ? & ->)]; m_simpl
         end
        |]
       | |]
      |]
     |]
    |]
   |]
  |].

(** The last two blocks: the dataset is accepted or refused, and the call
    to the engine is taken by the verb and the caller. *)
Ltac run_execute :=
  match goal with |- context [get_dataset ?d] =>
    destruct (get_dataset_cases d) as [[? ->]|(? & ? & ->)]; m_simpl
  end;
  [unfold execute;
   match goal with |- context [String.eqb ?v "DESCRIBE"] =>
     destruct (String.eqb v "DESCRIBE") eqn:?;
     [|destruct (String.eqb v "SELECT") eqn:?]
   end;
   match goal with |- context [match ?c with Some _ => _ | None => _ end] =>
     destruct c
   | _ => idtac
   end; m_simpl
  |].

(** The observations of a trace that ends in the chain of the factories. *)
Ltac obs_chain :=
  rewrite ?made_cons, ?datasets_cons, ?contexts_cons, ?queries_cons, ?engine_calls_cons,
    ?made_app, ?datasets_app, ?contexts_app, ?queries_app, ?engine_calls_app,
    ?made_cons, ?datasets_cons, ?contexts_cons, ?queries_cons, ?engine_calls_cons,
    ?made_factories, ?datasets_factories, ?contexts_factories, ?queries_factories,
    ?engine_calls_factories;
  cbn [made datasets contexts queries engine_calls omap list_omap List.filter app];
  rewrite ?app_nil_r.

(** The end of a run that passed the flag checks: the dataset is named, the
    last block is taken by cases and the trace is observed. *)
Ltac run_leaf :=
  try match goal with |- context [get_dataset ?d] => set (D := d) in * end;
  try run_execute;
  match goal with p := default _ _ |- _ => destruct (Parsed.verbose p) eqn:? end;
  m_simpl; obs_chain.

(** A statement about a known trace: its hypotheses are taken apart and
    the memberships in the lists of the trace are decided. *)
Ltac close_leaf :=
  repeat match goal with
    | |- _ /\ _ => split
    | |- chain _ _ <> [] => apply chain_not_nil
    | |- _ <> _ => discriminate
    | |- _ -> _ => intros ?
    | H : _ \/ _ |- _ => destruct H
    | H : exists _, _ |- _ => destruct H
    | H : _ /\ _ |- _ => destruct H
    end;
  subst; inv_elem;
  solve [congruence | reflexivity | eexists; reflexivity | eauto].

(** Two results of the parser for one query are the same result. *)
Ltac same_parse :=
  repeat match goal with
    | H1 : Expression_parseSQL ?s = inr ?a, H2 : Expression_parseSQL ?s = inr ?b |- _ =>
        rewrite H1 in H2; injection H2 as <-
    | H1 : Expression_parseSQL ?s = inl _, H2 : Expression_parseSQL ?s = inr _ |- _ =>
        rewrite H1 in H2; discriminate H2
    | H : (exists e, Expression_parseSQL _ = inl e) \/ _ |- _ =>
        destruct H as [[? H]|(? & H & ?)]
    end.

(** ** The requesters and the dataset of a run *)

Section RunProperties.

Context {api : TimeApi} {q : QueryApi}.

(** The factories are not called at all, or along the whole chain. *)
Lemma run_made (now : Z) (argv : Parsed.t) (command : option Parsed.t) :
  let parsed := default argv command in
  let bare :=
    druidRequester (JS.text (JS.or_else (Parsed.druid parsed) (Parsed.host parsed)))
      (default 60000 (Parsed.timeout parsed)) in
  let ls := layers (default 2 (Parsed.retry parsed)) (Parsed.verbose parsed)
              (default 2 (Parsed.concurrent parsed)) in
  made (run now argv command).1 = [] \/
  made (run now argv command).1 = chain bare ls.
Proof.
  intros parsed bare ls. subst bare ls.
  run_blocks; try (left; reflexivity).
  all: run_leaf; solve [left; reflexivity | right; reflexivity].
Qed.

(** A run hands no dataset to the engine, or exactly one, described by the
    flags and the parsed query; [compute] is called with that dataset under
    the binding name. *)
Lemma run_dataset_cases (now : Z) (argv : Parsed.t) (command : option Parsed.t) :
  let parsed := default argv command in
  let flag := Parsed.data_source parsed in
  let allows := default [] (Parsed.allow parsed) in
  let timeout := default 60000 (Parsed.timeout parsed) in
  let tr := (run now argv command).1 in
  (datasets tr = [] /\ contexts tr = [] /\ engine_calls tr = []) \/
  (exists sp filter,
     Expression_parseSQL (JS.text (Parsed.query parsed)) = inr sp /\
     bad_verb (verb sp) = false /\
     (JS.truthy flag = true \/ JS.truthy (table sp) = true) /\
     let dataName := if JS.truthy flag then "data" else JS.text (table sp) in
     let ds :=
       mkExternal "druid" (if JS.truthy flag then JS.text flag else JS.text (table sp))
         "__time" (bool_decide ("eternity" ∈ allows)) (bool_decide ("select" ∈ allows))
         (Parsed.introspection_strategy parsed) filter
         (decorate
            (druidRequester
               (JS.text (JS.or_else (Parsed.druid parsed) (Parsed.host parsed))) timeout)
            (layers (default 2 (Parsed.retry parsed)) (Parsed.verbose parsed)
               (default 2 (Parsed.concurrent parsed))))
         (get_attributeOverrides parsed) (get_druidContext parsed timeout) in
     datasets tr = [ds] /\
     made tr =
       chain
         (druidRequester
            (JS.text (JS.or_else (Parsed.druid parsed) (Parsed.host parsed))) timeout)
         (layers (default 2 (Parsed.retry parsed)) (Parsed.verbose parsed)
            (default 2 (Parsed.concurrent parsed))) /\
     contexts tr =
       match External_fromJS_throws ds with
       | Some _ => []
       | None => if String.eqb (verb sp) "DESCRIBE" then [] else [<[dataName := ds]> ∅]
       end).
Proof.
  intros parsed flag allows timeout tr. subst tr flag allows timeout.
  run_blocks; try (left; repeat split; reflexivity).
  all: run_leaf.
  all: first
    [ left; repeat split; reflexivity
    | exfalso;
      match goal with
      | H : bad_verb ?v = false, H1 : String.eqb ?v "DESCRIBE" = false,
        H2 : String.eqb ?v "SELECT" = false |- _ =>
          unfold bad_verb in H; rewrite H1, H2 in H; discriminate H
      end
    | right;
      match goal with
      | H : Expression_parseSQL _ = inr ?sp, D := mkExternal _ _ _ _ _ _ ?f _ _ _ |- _ =>
          exists sp, f
      end;
      subst D;
      repeat match goal with
        | H : ?t = _ |- context [if ?t then _ else _] => rewrite H
        end;
      cbv zeta;
      repeat match goal with
        | H : External_fromJS_throws _ = _ |- _ => rewrite H
        end;
      repeat split; auto ].
Qed.

(** The outermost requester, layer by layer. *)
Lemma decorate_layers (bare : Requester) (retry : Z) (verbose : bool) (concurrent : Z) :
  decorate bare (layers retry verbose concurrent) =
    let r1 := if 0 <? retry then retryRequester bare retry 500 false else bare in
    let r2 := if verbose then verboseRequester r1 else r1 in
    if 0 <? concurrent then concurrentLimitRequester r2 concurrent else r2.
Proof.
  unfold layers. destruct (0 <? retry), verbose, (0 <? concurrent); reflexivity.
Qed.

(** A run that passes its checks makes the whole chain, before the interval
    is looked at, and hands the outermost requester to [External.fromJS]
    when the interval is absent or parsed. *)
Lemma run_builds_chain (now : Z) (argv : Parsed.t) (command : option Parsed.t)
    (sp : SqlParse Expression) :
  let parsed := default argv command in
  let bare :=
    druidRequester (JS.text (JS.or_else (Parsed.druid parsed) (Parsed.host parsed)))
      (default 60000 (Parsed.timeout parsed)) in
  let ls := layers (default 2 (Parsed.retry parsed)) (Parsed.verbose parsed)
              (default 2 (Parsed.concurrent parsed)) in
  let tr := (run now argv command).1 in
  (command = None ->
     (length (Parsed.argv_original parsed) =? 0)%nat || Parsed.help parsed = false) ->
  Parsed.version parsed = false ->
  forallb allowed (default [] (Parsed.allow parsed)) = true ->
  bad_output (JS.toLowerCase (JS.or_default (Parsed.output parsed) "json")) = false ->
  JS.truthy (JS.or_else (Parsed.druid parsed) (Parsed.host parsed)) = true ->
  JS.truthy (Parsed.query parsed) = true ->
  Expression_parseSQL (JS.text (Parsed.query parsed)) = inr sp ->
  bad_verb (verb sp) = false ->
  JS.truthy (Parsed.data_source parsed) = true \/ JS.truthy (table sp) = true ->
  made tr = chain bare ls /\
  (JS.truthy (Parsed.interval parsed) = false \/
   (exists range, parseIntervalString now (JS.text (Parsed.interval parsed)) = inr range) ->
   exists ds, datasets tr = [ds] /\ requester ds = decorate bare ls).
Proof.
  intros parsed bare ls tr. subst tr ls bare.
  run_blocks; intros Hu Hv Ha Ho Hh Hq Hp Hb Hsrc; same_parse; try congruence;
    try solve [specialize (Hu ltac:(assumption)); congruence];
    try solve [destruct Hsrc; congruence].
  all: run_leaf.
  all: try solve
    [ exfalso;
      match goal with
      | H : bad_verb ?v = false, H1 : String.eqb ?v "DESCRIBE" = false,
        H2 : String.eqb ?v "SELECT" = false |- _ =>
          unfold bad_verb in H; rewrite H1, H2 in H; discriminate H
      end ].
  all: split; [reflexivity|].
  all: try solve [intros _; exists D; split; reflexivity].
  all: intros [Hi|[range Hi]]; congruence.
Qed.

(** C2: the factories are called in the order bare, retry, verbose,
    concurrency limit, each optional layer exactly when its test holds
    (retry > 0, the verbose flag, concurrent > 0), and the dataset of the run
    gets the outermost requester; with 0 for retry and for the limit neither
    layer is made.  Every run that passes the checks before line 221 (no
    usage or version request, expected allow values, a known output, a host,
    a query parsed to a SELECT or DESCRIBE, a data source) calls the
    factories along this chain, and unless the interval fails to parse it
    gives the outermost requester to the dataset. *)
Theorem run_requester_layers (now : Z) (argv : Parsed.t) (command : option Parsed.t) :
  let parsed := default argv command in
  let retry := default 2 (Parsed.retry parsed) in
  let verbose := Parsed.verbose parsed in
  let concurrent := default 2 (Parsed.concurrent parsed) in
  let bare :=
    druidRequester (JS.text (JS.or_else (Parsed.druid parsed) (Parsed.host parsed)))
      (default 60000 (Parsed.timeout parsed)) in
  let r1 := if 0 <? retry then retryRequester bare retry 500 false else bare in
  let r2 := if verbose then verboseRequester r1 else r1 in
  let r3 := if 0 <? concurrent then concurrentLimitRequester r2 concurrent else r2 in
  let tr := (run now argv command).1 in
  (made tr = [] \/ made tr = chain bare (layers retry verbose concurrent)) /\
  (forall ds, ds ∈ datasets tr ->
     made tr = chain bare (layers retry verbose concurrent) /\ requester ds = r3) /\
  chain bare (layers retry verbose concurrent) =
    [bare] ++ (if 0 <? retry then [r1] else []) ++ (if verbose then [r2] else []) ++
    (if 0 <? concurrent then [r3] else []) /\
  (retry = 0 -> concurrent = 0 ->
   chain bare (layers retry verbose concurrent) =
     if verbose then [bare; verboseRequester bare] else [bare]) /\
  (forall sp,
     (command = None ->
        (length (Parsed.argv_original parsed) =? 0)%nat || Parsed.help parsed = false) ->
     Parsed.version parsed = false ->
     forallb allowed (default [] (Parsed.allow parsed)) = true ->
     bad_output (JS.toLowerCase (JS.or_default (Parsed.output parsed) "json")) = false ->
     JS.truthy (JS.or_else (Parsed.druid parsed) (Parsed.host parsed)) = true ->
     JS.truthy (Parsed.query parsed) = true ->
     Expression_parseSQL (JS.text (Parsed.query parsed)) = inr sp ->
     bad_verb (verb sp) = false ->
     JS.truthy (Parsed.data_source parsed) = true \/ JS.truthy (table sp) = true ->
     made tr = chain bare (layers retry verbose concurrent) /\
     (JS.truthy (Parsed.interval parsed) = false \/
      (exists range,
         parseIntervalString now (JS.text (Parsed.interval parsed)) = inr range) ->
      exists ds, datasets tr = [ds] /\ requester ds = r3)).
Proof.
  intros parsed retry verbose concurrent bare r1 r2 r3 tr.
  split; [apply run_made|]. split.
  - subst tr r3 r2 r1. rewrite <- decorate_layers. intros ds Hds.
    destruct (run_dataset_cases now argv command)
      as [(E & _)|(sp & f & _ & _ & _ & E & Em & _)];
      fold parsed in E; rewrite E in Hds; inv_elem.
    split; [exact Em | reflexivity].
  - split; [|split].
    + subst r3 r2 r1. unfold layers.
      destruct (0 <? retry), verbose, (0 <? concurrent); reflexivity.
    + intros -> ->. unfold layers. destruct verbose; reflexivity.
    + intros sp Hu Hv Ha Ho Hh Hq Hp Hb Hsrc.
      subst tr r3 r2 r1. rewrite <- decorate_layers.
      exact (run_builds_chain now argv command sp Hu Hv Ha Ho Hh Hq Hp Hb Hsrc).
Qed.

End RunProperties.

(** ** The retry layer *)

Module RetryFacts.
Import RetryLayer.

Lemma attempt_dispatches (k : nat) (delay : Z) (b : bool) (beneath : nat -> outcome)
    (n : nat) :
  (1 <= dispatches (attempt k delay b beneath n).1 <= S k)%nat.
Proof.
  revert n. induction k as [|k IH]; intros n; simpl.
  - destruct (beneath n); cbn; lia.
  - destruct (beneath n) as [|f]; [cbn; lia|].
    destruct (is_timeout f && negb b); [cbn; lia|].
    specialize (IH (S n)). destruct (attempt k delay b beneath (S n)) as [acts o].
    cbn in *. lia.
Qed.

(** Every wait is the configured delay, and there is one before each
    dispatch after the first. *)
Lemma attempt_waits (k : nat) (delay : Z) (b : bool) (beneath : nat -> outcome)
    (n : nat) :
  let acts := (attempt k delay b beneath n).1 in
  waits acts = repeat delay (dispatches acts - 1).
Proof.
  revert n. induction k as [|k IH]; intros n; simpl.
  - destruct (beneath n); reflexivity.
  - destruct (beneath n) as [|f]; [reflexivity|].
    destruct (is_timeout f && negb b); [reflexivity|].
    specialize (IH (S n)). pose proof (attempt_dispatches k delay b beneath (S n)) as Hd.
    destruct (attempt k delay b beneath (S n)) as [acts o].
    cbn in *. rewrite IH.
    destruct (length (List.filter _ acts)) as [|m]; [lia|].
    cbn. now rewrite Nat.sub_0_r.
Qed.

(** A timeout is passed through at once when [retryOnTimeout] is off. *)
Lemma attempt_timeout (k : nat) (delay : Z) (beneath : nat -> outcome) (n : nat) :
  beneath n = rejected timed_out ->
  attempt k delay false beneath n = ([dispatch], rejected timed_out).
Proof. intros H. destruct k; simpl; rewrite H; reflexivity. Qed.

(** A transport that keeps failing is tried once and then [k] more times. *)
Lemma attempt_exhausted (k : nat) (delay : Z) (b : bool) (beneath : nat -> outcome)
    (n : nat) :
  (forall i, beneath i = rejected transport_error) ->
  dispatches (attempt k delay b beneath n).1 = S k /\
  (attempt k delay b beneath n).2 = rejected transport_error.
Proof.
  intros H. revert n. induction k as [|k IH]; intros n; simpl; rewrite H; simpl.
  - auto.
  - specialize (IH (S n)). destruct (attempt k delay b beneath (S n)) as [acts o].
    cbn in *. destruct IH as [-> ->]. auto.
Qed.

(** A success ends the request: no dispatch follows it. *)
Lemma attempt_resolved (k : nat) (delay : Z) (b : bool) (beneath : nat -> outcome)
    (n : nat) :
  beneath n = resolved -> attempt k delay b beneath n = ([dispatch], resolved).
Proof. intros H. destruct k; simpl; rewrite H; reflexivity. Qed.

(** With [retryOnTimeout] off, the outcome is the answer to the last
    dispatch, every dispatch before the last was answered by a transport
    error, and a transport error is the outcome only when the retries are
    used up. *)
Lemma attempt_trace (k : nat) (delay : Z) (beneath : nat -> outcome) (n : nat) :
  let acts := (attempt k delay false beneath n).1 in
  let o := (attempt k delay false beneath n).2 in
  o = beneath (n + (dispatches acts - 1))%nat /\
  (forall i, (i < dispatches acts - 1)%nat ->
     beneath (n + i)%nat = rejected transport_error) /\
  (o = rejected transport_error -> dispatches acts = S k).
Proof.
  revert n. induction k as [|k IH]; intros n; cbn [attempt].
  - destruct (beneath n) as [|f] eqn:E; cbn; rewrite Nat.add_0_r;
      (split; [now rewrite E|]); (split; [intros i Hi; lia|]); auto; discriminate.
  - destruct (beneath n) as [|f] eqn:E.
    + cbn. rewrite Nat.add_0_r. split; [now rewrite E|]. split; [intros i Hi; lia|].
      discriminate.
    + destruct f; cbn [is_timeout negb andb].
      * cbn. rewrite Nat.add_0_r. split; [now rewrite E|]. split; [intros i Hi; lia|].
        discriminate.
      * specialize (IH (S n)).
        pose proof (attempt_dispatches k delay false beneath (S n)) as Hd.
        destruct (attempt k delay false beneath (S n)) as [acts o].
        cbn [fst snd] in *. cbv zeta in IH. destruct IH as (Ho & Hi & Hx).
        change (dispatches (dispatch :: wait delay :: acts)) with (S (dispatches acts)).
        split; [|split].
        -- rewrite Ho. f_equal. lia.
        -- intros i Hlt. destruct i as [|i]; [now rewrite Nat.add_0_r|].
           replace (n + S i)%nat with (S n + i)%nat by lia. apply Hi. lia.
        -- intros H. now rewrite (Hx H).
Qed.

End RetryFacts.

Section RetryProperties.

Context {api : TimeApi} {q : QueryApi}.

(** C3: a retry requester made by [run] has the retry count of the flag
    (default 2, greater than 0), the delay 500 and [retryOnTimeout] false.
    In the model of the layer such a requester dispatches at most 1 + retry
    times, waits 500 before each dispatch after the first, stops at the first
    success, retries a transport that keeps failing exactly retry times, and
    dispatches a transport that times out exactly once.  Whatever the
    transport answers, the outcome is the answer to the last dispatch and
    every dispatch before the last was answered by a transport error: a
    timeout is never retried, at whichever dispatch it comes, and a
    transport error is given up only when the retries are used up. *)
Theorem run_retry_layer (now : Z) (argv : Parsed.t) (command : option Parsed.t)
    (inner : Requester) (retry delay : Z) (retryOnTimeout : bool) :
  let parsed := default argv command in
  let r := retryRequester inner retry delay retryOnTimeout in
  r ∈ made (run now argv command).1 ->
  (retry = default 2 (Parsed.retry parsed) /\ 0 < retry /\ delay = 500 /\
   retryOnTimeout = false) /\
  forall beneath : nat -> RetryLayer.outcome,
    exists acts o, RetryLayer.request r beneath = Some (acts, o) /\
      (1 <= RetryLayer.dispatches acts <= 1 + Z.to_nat retry)%nat /\
      RetryLayer.waits acts = repeat 500 (RetryLayer.dispatches acts - 1) /\
      (beneath O = RetryLayer.resolved ->
         acts = [RetryLayer.dispatch] /\ o = RetryLayer.resolved) /\
      ((forall i, beneath i = RetryLayer.rejected RetryLayer.transport_error) ->
         RetryLayer.dispatches acts = (1 + Z.to_nat retry)%nat /\
         o = RetryLayer.rejected RetryLayer.transport_error) /\
      ((forall i, beneath i = RetryLayer.rejected RetryLayer.timed_out) ->
         acts = [RetryLayer.dispatch] /\
         o = RetryLayer.rejected RetryLayer.timed_out) /\
      o = beneath (RetryLayer.dispatches acts - 1)%nat /\
      (forall i, (i < RetryLayer.dispatches acts - 1)%nat ->
         beneath i = RetryLayer.rejected RetryLayer.transport_error) /\
      (o = RetryLayer.rejected RetryLayer.transport_error ->
         RetryLayer.dispatches acts = (1 + Z.to_nat retry)%nat) /\
      (forall i, (i < RetryLayer.dispatches acts)%nat ->
         beneath i = RetryLayer.rejected RetryLayer.timed_out ->
         RetryLayer.dispatches acts = S i /\
         o = RetryLayer.rejected RetryLayer.timed_out).
Proof.
  intros parsed r Hr.
  assert (Hp : retry = default 2 (Parsed.retry parsed) /\ 0 < retry /\ delay = 500 /\
               retryOnTimeout = false).
  { destruct (run_made now argv command) as [E|E]; fold parsed in E; rewrite E in Hr.
    - inv_elem.
    - subst r. unfold layers in Hr.
      destruct (Z.ltb_spec 0 (default 2 (Parsed.retry parsed))),
        (Parsed.verbose parsed), (0 <? default 2 (Parsed.concurrent parsed));
        cbn [chain app] in Hr; inv_elem; try discriminate;
        match goal with H : retryRequester _ _ _ _ = _ |- _ => injection H as -> -> -> -> end;
        auto. }
  split; [exact Hp|]. destruct Hp as (_ & _ & -> & ->).
  intros beneath. subst r. cbn [RetryLayer.request].
  destruct (RetryLayer.attempt (Z.to_nat retry) 500 false beneath 0) as [acts o] eqn:E.
  exists acts, o. split; [reflexivity|].
  pose proof (RetryFacts.attempt_dispatches (Z.to_nat retry) 500 false beneath 0) as Hd.
  pose proof (RetryFacts.attempt_waits (Z.to_nat retry) 500 false beneath 0) as Hw.
  rewrite E in Hd, Hw. cbn [fst] in Hd, Hw. cbv zeta in Hw.
  pose proof (RetryFacts.attempt_trace (Z.to_nat retry) 500 beneath 0) as Ht.
  rewrite E in Ht. cbn [fst snd Nat.add] in Ht. cbv zeta in Ht.
  destruct Ht as (Ho & Hi & Hg).
  split; [lia|]. split; [exact Hw|]. split; [|split; [|split]].
  - intros H. rewrite (RetryFacts.attempt_resolved _ _ _ _ _ H) in E.
    injection E as <- <-. auto.
  - intros H.
    pose proof (RetryFacts.attempt_exhausted (Z.to_nat retry) 500 false beneath 0 H) as Hx.
    rewrite E in Hx. exact Hx.
  - intros H. rewrite (RetryFacts.attempt_timeout _ _ _ _ (H O)) in E.
    injection E as <- <-. auto.
  - split; [exact Ho|]. split; [exact Hi|]. split; [exact Hg|].
    intros i Hlt Hb.
    destruct (Nat.lt_ge_cases i (RetryLayer.dispatches acts - 1)) as [Hl|Hl].
    + rewrite (Hi i Hl) in Hb. discriminate Hb.
    + assert (Ei : (RetryLayer.dispatches acts - 1)%nat = i) by lia.
      rewrite Ei in Ho. split; [lia | now rewrite Ho].
Qed.

End RetryProperties.

(** ** Data source, binding name and attribute overrides *)

Lemma push_all_map (special : Special) (names : list string) (acc : list AttributeJS) :
  push_all special names acc = acc ++ map (fun n => mkAttributeJS n special) names.
Proof.
  unfold push_all. revert acc. induction names as [|n names IH]; intros acc; simpl.
  - now rewrite app_nil_r.
  - rewrite IH, <- app_assoc. reflexivity.
Qed.

Section ResolutionProperties.

Context {api : TimeApi} {q : QueryApi}.

(** C4: once the query is parsed (to a SELECT or DESCRIBE), the data source
    of the dataset is the value of [--data-source] when it is given (a
    non-empty string), else the table of the parsed query; with neither, the
    run prints "must have data source" and returns with nothing made or
    executed.  A data source that is resolved reaches a dataset unless the
    interval fails to parse. *)
Theorem run_data_source (now : Z) (argv : Parsed.t) (command : option Parsed.t)
    (sp : SqlParse Expression) :
  let parsed := default argv command in
  let flag := Parsed.data_source parsed in
  let query := JS.text (Parsed.query parsed) in
  let interval := Parsed.interval parsed in
  let tr := (run now argv command).1 in
  queries tr = [query] ->
  Expression_parseSQL query = inr sp ->
  bad_verb (verb sp) = false ->
  (JS.truthy flag = true ->
     made tr <> [] /\ forall ds, ds ∈ datasets tr -> dataSource ds = JS.text flag) /\
  (JS.truthy flag = false -> JS.truthy (table sp) = true ->
     made tr <> [] /\ forall ds, ds ∈ datasets tr -> dataSource ds = JS.text (table sp)) /\
  (JS.truthy flag = false -> JS.truthy (table sp) = false ->
     run now argv command =
       (parseSQL query ::
        (if Parsed.verbose parsed then
           [console_log ["Parsed query as the following plywood expression (as JSON):"];
            console_log [JSON_stringify (expression sp)];
            console_log ["---------------------------"]]
         else []) ++
        [console_log ["must have data source"]], undefined)) /\
  (JS.truthy flag = true \/ JS.truthy (table sp) = true ->
   JS.truthy interval = false \/
     (exists range, parseIntervalString now (JS.text interval) = inr range) ->
   exists ds, datasets tr = [ds]).
Proof.
  intros parsed flag query interval tr. subst tr flag query interval.
  run_blocks; cbn [queries omap list_omap]; try discriminate; intros _ Hp Hv;
    same_parse; try congruence.
  all: run_leaf; close_leaf.
Qed.


(** C8: the dataset carries one override of kind unique for each value of
    [--force-unique], then one of kind histogram for each value of
    [--force-histogram], in the order of the values and with repeated names
    kept. *)
Theorem run_attribute_overrides (now : Z) (argv : Parsed.t) (command : option Parsed.t)
    (ds : External) :
  let parsed := default argv command in
  let forceUnique := default [] (Parsed.force_unique parsed) in
  let forceHistogram := default [] (Parsed.force_histogram parsed) in
  ds ∈ datasets (run now argv command).1 ->
  attributeOverrides ds =
    map (fun n => mkAttributeJS n unique) forceUnique ++
    map (fun n => mkAttributeJS n histogram) forceHistogram /\
  length (attributeOverrides ds) = (length forceUnique + length forceHistogram)%nat.
Proof.
  intros parsed fu fh Hds.
  assert (E : attributeOverrides ds =
    map (fun n => mkAttributeJS n unique) fu ++ map (fun n => mkAttributeJS n histogram) fh).
  { destruct (run_dataset_cases now argv command) as [(E & _)|(sp & f & _ & _ & _ & E & _)];
      fold parsed in E; rewrite E in Hds; inv_elem.
    cbn [attributeOverrides]. unfold get_attributeOverrides.
    rewrite !push_all_map. reflexivity. }
  split; [exact E|]. rewrite E, length_app, !length_map. reflexivity.
Qed.

(** C9: [compute] gets one binding, of the dataset of the run; its name is
    "data" whenever [--data-source] is given (a non-empty string), whatever
    table the query names, and it is the table of the parsed query only when
    the flag is absent. *)
Theorem run_binding_name (now : Z) (argv : Parsed.t) (command : option Parsed.t)
    (ctx : gmap string External) :
  let parsed := default argv command in
  let flag := Parsed.data_source parsed in
  let tr := (run now argv command).1 in
  ctx ∈ contexts tr ->
  exists sp ds,
    Expression_parseSQL (JS.text (Parsed.query parsed)) = inr sp /\
    datasets tr = [ds] /\
    (JS.truthy flag = true -> ctx = {["data" := ds]}) /\
    (JS.truthy flag = false ->
       JS.truthy (table sp) = true /\ ctx = {[JS.text (table sp) := ds]}) /\
    (forall name, is_Some (ctx !! name) ->
       name = if JS.truthy flag then "data" else JS.text (table sp)).
Proof.
  intros parsed flag tr Hctx. subst tr.
  destruct (run_dataset_cases now argv command)
    as [(_ & E & _)|(sp & f & Hp & _ & Hsrc & Hds & _ & E)];
    fold parsed in E; rewrite E in Hctx; [inv_elem|].
  fold parsed flag in Hp, Hsrc, Hds. fold flag in Hctx.
  match type of Hctx with
  | context [External_fromJS_throws ?d] => destruct (External_fromJS_throws d)
  end; [inv_elem|].
  destruct (String.eqb (verb sp) "DESCRIBE"); inv_elem.
  eexists sp, _. split; [exact Hp|]. split; [exact Hds|].
  rewrite insert_empty.
  destruct (JS.truthy flag) eqn:Hf.
  - split; [reflexivity|]. split; [discriminate|].
    intros name [v Hv]. apply lookup_singleton_Some in Hv. now destruct Hv.
  - split; [discriminate|]. split.
    + intros _. destruct Hsrc; [discriminate | auto].
    + intros name [v Hv]. apply lookup_singleton_Some in Hv. now destruct Hv.
Qed.

(** ** The flag checks *)

Lemma bad_output_spec (output : string) :
  bad_output output = true <-> output ∉ ["json"; "csv"; "tsv"; "flat"].
Proof.
  unfold bad_output. rewrite !not_elem_of_cons.
  destruct (String.eqb_spec output "json"), (String.eqb_spec output "csv"),
    (String.eqb_spec output "tsv"), (String.eqb_spec output "flat");
    cbn; split; try discriminate; try tauto.
  intros _. repeat split; try assumption. apply not_elem_of_nil.
Qed.

(** C5 (amended): an output value (json when the flag is absent, lower-cased)
    outside json, csv, tsv and flat ends every run before the query is
    parsed, a requester is made or the engine is called; when the run is not
    a usage or version request and its allow values are expected, what it
    prints is the line "output must be one of ...". *)
Theorem run_bad_output (now : Z) (argv : Parsed.t) (command : option Parsed.t) :
  let parsed := default argv command in
  let output := JS.toLowerCase (JS.or_default (Parsed.output parsed) "json") in
  let r := run now argv command in
  output ∉ ["json"; "csv"; "tsv"; "flat"] ->
  (queries r.1 = [] /\ made r.1 = [] /\ datasets r.1 = [] /\ engine_calls r.1 = [] /\
   r.2 = undefined) /\
  ((command = None ->
      (length (Parsed.argv_original parsed) =? 0)%nat || Parsed.help parsed = false) ->
   Parsed.version parsed = false ->
   forallb allowed (default [] (Parsed.allow parsed)) = true ->
   r = ([console_log
           ["output must be one of json, csv, tsv, or flat (is " +:+ output +:+ "})"]],
        undefined)) /\
  (JS.truthy (Parsed.output parsed) = true) /\
  bad_output (JS.toLowerCase (JS.or_default None "json")) = false /\
  bad_output (JS.toLowerCase (JS.or_default (Some "CSV") "json")) = false /\
  bad_output (JS.toLowerCase (JS.or_default (Some "Flat") "json")) = false.
Proof.
  intros parsed output r Hbad. apply bad_output_spec in Hbad.
  assert (Hflag : JS.truthy (Parsed.output parsed) = true).
  { subst output. unfold JS.or_default in Hbad.
    destruct (JS.truthy (Parsed.output parsed)); [reflexivity | discriminate Hbad]. }
  subst r output.
  run_blocks; try congruence; (split; [repeat split|]); (split; [|auto]);
    intros Hu Hv Ha; try congruence; specialize (Hu ltac:(assumption)); congruence.
Qed.

(** C10 (amended): without a host ([--druid] and [--host] both absent or
    empty) no run parses the query, makes a requester or calls the engine;
    when the run is not a usage or version request and its allow and output
    values are accepted, what it prints is the line "must have a host". *)
Theorem run_no_host (now : Z) (argv : Parsed.t) (command : option Parsed.t) :
  let parsed := default argv command in
  let r := run now argv command in
  JS.truthy (JS.or_else (Parsed.druid parsed) (Parsed.host parsed)) = false ->
  (queries r.1 = [] /\ made r.1 = [] /\ datasets r.1 = [] /\ engine_calls r.1 = [] /\
   r.2 = undefined) /\
  ((command = None ->
      (length (Parsed.argv_original parsed) =? 0)%nat || Parsed.help parsed = false) ->
   Parsed.version parsed = false ->
   forallb allowed (default [] (Parsed.allow parsed)) = true ->
   bad_output (JS.toLowerCase (JS.or_default (Parsed.output parsed) "json")) = false ->
   r = ([console_log ["must have a host"]], undefined)).
Proof.
  intros parsed r Hhost. subst r.
  run_blocks; try congruence; (split; [repeat split|]);
    intros Hu Hv Ha Ho; try congruence; specialize (Hu ltac:(assumption)); congruence.
Qed.

End ResolutionProperties.

(** * The properties on concrete command lines

    The reference time library and the stand-in parser instantiate the
    collaborators; the current time is 2024-01-02T00:00:00.123Z. *)

#[local] Existing Instance RefTime.api.
#[local] Existing Instance SqlDouble.api.

Lemma too_many_parts_abc :
  (2 <= JS.occurrences "/" "a/b/c")%nat /\
  parseIntervalString 1704153600123 "a/b/c" =
    inl (JS.Error "Can not parse string a/b/c").
Proof.
  split; [simpl; lia|].
  apply (parseIntervalString_too_many_parts 1704153600123 "a/b/c"). simpl. lia.
Defined.

Lemma duration_instant_P1D :
  parseIntervalString 1704153600123 "P1D/2024-01-02T00:00:00Z" =
    inr {| start := Some (DateMs 1704067200000); end_ := Some (DateMs 1704153600000) |} /\
  parseIntervalString 1704153600123 "P1D" =
    inr {| start := Some (DateMs 1704067200123); end_ := Some (DateMs 1704153600123) |} /\
  parseIntervalString 1704153600123 "P1D/2024-01-02T00:00:00Z" =
    inr {| start := Some (RefTime.TimeClip (1704153600000 - 86400000));
           end_ := Some (DateMs 1704153600000) |}.
Proof.
  pose proof (parseIntervalString_duration_instant (api := RefTime.api) 1704153600123
                "P1D" "2024-01-02T00:00:00Z" (RefTime.mkDuration 0 0 0 1 0 0 0)
                (Some (DateMs 1704067200000)) (Some (DateMs 1704067200123))
                eq_refl eq_refl eq_refl eq_refl eq_refl eq_refl) as (H1 & H2 & H3 & _).
  split; [exact H1|]. split; [exact H2|].
  exact (H3 (RefTime.mkDuration 0 0 0 1 0 0 0) 1704153600000 eq_refl eq_refl eq_refl
           eq_refl).
Defined.

Lemma instant_duration_P1D :
  parseIntervalString 1704153600123 "2024-01-01T00:00:00Z/P1D" =
    inl (JS.TypeError "Cannot read property 'valueOf' of null") /\
  parseIntervalString 1704153600123 "2024-01-01T00:00:00Z/P1D" <>
    inr {| start := Some (DateMs 1704067200000); end_ := Some (DateMs 1704153600000) |}.
Proof.
  pose proof (parseIntervalString_instant_duration_null_end (api := RefTime.api)
                1704153600123 "2024-01-01T00:00:00Z" "P1D"
                (RefTime.mkDuration 0 0 0 1 0 0 0)
                eq_refl eq_refl ltac:(discriminate) eq_refl eq_refl) as [H _].
  split; [exact H|]. intros E. generalize (eq_trans (eq_sym H) E). discriminate.
Defined.

(** An interval instant/duration ends the run: the requesters are made, the
    error of the move from [null] is printed and no dataset is built. *)
Example run_forward_interval :
  run 1704153600123 Examples.forward_interval None =
    ([parseSQL "SELECT * FROM bar";
      requesterFactory (druidRequester "druid:8082" 60000);
      requesterFactory (retryRequester (druidRequester "druid:8082" 60000) 2 500 false);
      requesterFactory
        (concurrentLimitRequester
           (retryRequester (druidRequester "druid:8082" 60000) 2 500 false) 2);
      console_log ["Could not parse interval"; "2024-01-01T00:00:00Z/P1D"];
      console_log ["Cannot read property 'valueOf' of null"]],
     undefined).
Proof. reflexivity. Qed.

(** The chain of [-v -r 5 -c 1]: all three layers, in order. *)
Example made_retry5 :
  made (run 1704153600123 Examples.retry5 None).1 =
    let bare := druidRequester "druid:8082" 60000 in
    [bare;
     retryRequester bare 5 500 false;
     verboseRequester (retryRequester bare 5 500 false);
     concurrentLimitRequester (verboseRequester (retryRequester bare 5 500 false)) 1].
Proof. reflexivity. Qed.

Lemma requester_layers_retry5 :
  let bare := druidRequester "druid:8082" 60000 in
  let outermost :=
    concurrentLimitRequester (verboseRequester (retryRequester bare 5 500 false)) 1 in
  made (run 1704153600123 Examples.retry5 None).1 =
    [bare; retryRequester bare 5 500 false;
     verboseRequester (retryRequester bare 5 500 false); outermost] /\
  (exists ds, datasets (run 1704153600123 Examples.retry5 None).1 = [ds] /\
     requester ds = outermost) /\
  made (run 1704153600123 CommandLines.bare_only None).1 = [bare] /\
  (exists ds, datasets (run 1704153600123 CommandLines.bare_only None).1 = [ds] /\
     requester ds = bare).
Proof.
  intros bare outermost.
  destruct (run_requester_layers (api := RefTime.api) (q := SqlDouble.api)
              1704153600123 Examples.retry5 None) as (_ & _ & _ & _ & H5).
  destruct (H5 (mkSqlParse "SELECT" (Some "bar") "SELECT * FROM bar")
              (fun _ => eq_refl) eq_refl eq_refl eq_refl eq_refl eq_refl eq_refl eq_refl
              (or_intror eq_refl)) as [Hm5 Hd5].
  destruct (run_requester_layers (api := RefTime.api) (q := SqlDouble.api)
              1704153600123 CommandLines.bare_only None) as (_ & _ & _ & _ & H0).
  destruct (H0 (mkSqlParse "SELECT" (Some "bar") "SELECT * FROM bar")
              (fun _ => eq_refl) eq_refl eq_refl eq_refl eq_refl eq_refl eq_refl eq_refl
              (or_intror eq_refl)) as [Hm0 Hd0].
  split; [exact Hm5|]. split; [exact (Hd5 (or_introl eq_refl))|].
  split; [exact Hm0 | exact (Hd0 (or_introl eq_refl))].
Defined.

Lemma retry_layer_retry5 :
  let r := retryRequester (druidRequester "druid:8082" 60000) 5 500 false in
  r ∈ made (run 1704153600123 Examples.retry5 None).1 /\
  RetryLayer.request r (fun _ => RetryLayer.rejected RetryLayer.timed_out) =
    Some ([RetryLayer.dispatch], RetryLayer.rejected RetryLayer.timed_out) /\
  (exists acts,
     RetryLayer.request r (fun _ => RetryLayer.rejected RetryLayer.transport_error) =
       Some (acts, RetryLayer.rejected RetryLayer.transport_error) /\
     RetryLayer.dispatches acts = 6%nat) /\
  let error_then_timeouts := fun n : nat =>
    match n with
    | O => RetryLayer.rejected RetryLayer.transport_error
    | S _ => RetryLayer.rejected RetryLayer.timed_out
    end in
  exists acts,
    RetryLayer.request r error_then_timeouts =
      Some (acts, RetryLayer.rejected RetryLayer.timed_out) /\
    RetryLayer.dispatches acts = 2%nat.
Proof.
  intros r.
  assert (Hin : r ∈ made (run 1704153600123 Examples.retry5 None).1).
  { apply list_elem_of_further, list_elem_of_here. }
  split; [exact Hin|].
  destruct (run_retry_layer 1704153600123 Examples.retry5 None
              (druidRequester "druid:8082" 60000) 5 500 false Hin) as [_ H].
  split; [|split].
  - destruct (H (fun _ => RetryLayer.rejected RetryLayer.timed_out))
      as (acts & o & E & _ & _ & _ & _ & Ht & _).
    destruct (Ht (fun _ => eq_refl)) as [-> ->]. exact E.
  - destruct (H (fun _ => RetryLayer.rejected RetryLayer.transport_error))
      as (acts & o & E & _ & _ & _ & Hx & _).
    destruct (Hx (fun _ => eq_refl)) as [Hd ->]. exists acts. split; [exact E | exact Hd].
  - intros error_then_timeouts.
    destruct (H error_then_timeouts) as (acts & o & E & Hn & _ & _ & _ & _ & _ & _ & _ & Hl).
    assert (Hlt : (1 < RetryLayer.dispatches acts)%nat).
    { assert (E' := E). vm_compute in E'. injection E' as <- _. vm_compute. lia. }
    destruct (Hl 1%nat Hlt eq_refl) as [Hd ->]. exists acts. split; [exact E | exact Hd].
Defined.

Lemma data_source_foo_bar_none :
  (forall ds, ds ∈ datasets (run 1704153600123 Examples.select_bar_as_foo None).1 ->
     dataSource ds = "foo") /\
  (exists ds, datasets (run 1704153600123 Examples.select_bar_as_foo None).1 = [ds]) /\
  (forall ds, ds ∈ datasets (run 1704153600123 Examples.select_bar None).1 ->
     dataSource ds = "bar") /\
  run 1704153600123 Examples.select_nothing None =
    ([parseSQL "SELECT 1"; console_log ["must have data source"]], undefined).
Proof.
  pose proof (run_data_source 1704153600123 Examples.select_bar_as_foo None
                (mkSqlParse "SELECT" (Some "bar") "SELECT * FROM bar")
                eq_refl eq_refl eq_refl) as (Hfoo & _ & _ & Hex).
  pose proof (run_data_source 1704153600123 Examples.select_bar None
                (mkSqlParse "SELECT" (Some "bar") "SELECT * FROM bar")
                eq_refl eq_refl eq_refl) as (_ & Hbar & _ & _).
  pose proof (run_data_source 1704153600123 Examples.select_nothing None
                (mkSqlParse "SELECT" None "SELECT 1")
                eq_refl eq_refl eq_refl) as (_ & _ & Hnone & _).
  split; [exact (proj2 (Hfoo eq_refl))|].
  split; [exact (Hex (or_introl eq_refl) (or_introl eq_refl))|].
  split; [exact (proj2 (Hbar eq_refl eq_refl))|].
  exact (Hnone eq_refl eq_refl).
Defined.

Lemma attribute_overrides_forced :
  exists ds, ds ∈ datasets (run 1704153600123 Examples.forced None).1 /\
    attributeOverrides ds =
      [mkAttributeJS "a" unique; mkAttributeJS "b" unique; mkAttributeJS "a" unique;
       mkAttributeJS "c" histogram].
Proof.
  assert (H : exists ds, datasets (run 1704153600123 Examples.forced None).1 = [ds])
    by (eexists; reflexivity).
  destruct H as [ds H]. exists ds.
  assert (Hin : ds ∈ datasets (run 1704153600123 Examples.forced None).1)
    by (rewrite H; apply list_elem_of_here).
  split; [exact Hin|].
  exact (proj1 (run_attribute_overrides 1704153600123 Examples.forced None ds Hin)).
Defined.

Lemma binding_name_data :
  exists ctx ds, ctx ∈ contexts (run 1704153600123 Examples.select_bar_as_foo None).1 /\
    datasets (run 1704153600123 Examples.select_bar_as_foo None).1 = [ds] /\
    ctx = {["data" := ds]} /\ dataSource ds = "foo".
Proof.
  assert (H : exists ctx,
            contexts (run 1704153600123 Examples.select_bar_as_foo None).1 = [ctx])
    by (eexists; reflexivity).
  destruct H as [ctx H]. exists ctx.
  assert (Hin : ctx ∈ contexts (run 1704153600123 Examples.select_bar_as_foo None).1)
    by (rewrite H; apply list_elem_of_here).
  destruct (run_binding_name 1704153600123 Examples.select_bar_as_foo None ctx Hin)
    as (sp & ds & _ & Hds & Hflag & _).
  exists ds. split; [exact Hin|]. split; [exact Hds|]. split; [exact (Hflag eq_refl)|].
  cbn in Hds. injection Hds as <-. reflexivity.
Defined.

(** C5 (the claim as stated fails): with [--version] the version is printed
    and a wrong output value is not reported. *)
Lemma bad_output_version_first :
  (bad_output
     (JS.toLowerCase (JS.or_default (Parsed.output Examples.version_xml) "json")) = true) /\
  run 1704153600123 Examples.version_xml None = ([printVersion], undefined) /\
  forall line, console_log line ∉ (run 1704153600123 Examples.version_xml None).1.
Proof.
  split; [reflexivity|]. split; [reflexivity|].
  intros line H. cbn in H. apply list_elem_of_singleton in H. discriminate H.
Qed.

Lemma bad_output_XML :
  (JS.toLowerCase (JS.or_default (Parsed.output Examples.select_bar_xml) "json")
     ∉ ["json"; "csv"; "tsv"; "flat"]) /\
  run 1704153600123 Examples.select_bar_xml None =
    ([console_log ["output must be one of json, csv, tsv, or flat (is xml})"]], undefined).
Proof.
  assert (Hbad : JS.toLowerCase (JS.or_default (Parsed.output Examples.select_bar_xml) "json")
                 ∉ ["json"; "csv"; "tsv"; "flat"])
    by (apply bad_output_spec; reflexivity).
  split; [exact Hbad|].
  destruct (run_bad_output 1704153600123 Examples.select_bar_xml None Hbad)
    as (_ & H & _).
  exact (H (fun _ => eq_refl) eq_refl eq_refl).
Defined.

(** C10 (the claim as stated fails): without a host and with a wrong output
    value the output is reported, "must have a host" is not. *)
Lemma no_host_output_first :
  Parsed.host Examples.xml_no_host = None /\ Parsed.druid Examples.xml_no_host = None /\
  run 1704153600123 Examples.xml_no_host None =
    ([console_log ["output must be one of json, csv, tsv, or flat (is xml})"]], undefined) /\
  console_log ["must have a host"] ∉ (run 1704153600123 Examples.xml_no_host None).1.
Proof.
  split; [reflexivity|]. split; [reflexivity|]. split; [reflexivity|].
  intros H. cbn in H. apply list_elem_of_singleton in H. discriminate H.
Qed.

Lemma no_host_reported :
  (JS.truthy (JS.or_else (Parsed.druid Examples.no_host) (Parsed.host Examples.no_host))
     = false) /\
  run 1704153600123 Examples.no_host None =
    ([console_log ["must have a host"]], undefined).
Proof.
  split; [reflexivity|].
  destruct (run_no_host 1704153600123 Examples.no_host None eq_refl) as [_ H].
  exact (H (fun _ => eq_refl) eq_refl eq_refl eq_refl).
Defined.

(** * Further properties *)

(** ** [parseIntervalString]: errors and the clock *)

Section IntervalFurther.

Context {api : TimeApi}.

(** X2: an error thrown by [Duration.fromJS] on the side that begins with
    'P' is the error [parseIntervalString] throws: the left side first, the
    right side only when the left does not begin with 'P'. *)
Theorem parseIntervalString_duration_error (now : Z) (p0 p1 : string) (e : JS.exn) :
  JS.occurrences "/" p0 = O -> JS.occurrences "/" p1 = O ->
  (JS.char0 p0 = Some "P"%char -> Duration_fromJS p0 = inl e ->
     parseIntervalString now (p0 +:+ "/" +:+ p1) = inl e /\
     parseIntervalString now p0 = inl e) /\
  (JS.char0 p0 <> Some "P"%char -> JS.char0 p1 = Some "P"%char ->
   Duration_fromJS p1 = inl e ->
     parseIntervalString now (p0 +:+ "/" +:+ p1) = inl e).
Proof.
  intros H0 H1. split.
  - intros HP He. split.
    + change (p0 +:+ "/" +:+ p1) with (p0 +:+ String "/" p1).
      rewrite (parts_of_pair _ _ _ H0 H1), bool_decide_eq_true_2 by exact HP.
      rewrite He. reflexivity.
    + rewrite (parts_of_single _ _ H0 HP), He. reflexivity.
  - intros HP0 HP1 He.
    change (p0 +:+ "/" +:+ p1) with (p0 +:+ String "/" p1).
    rewrite (parts_of_pair _ _ _ H0 H1).
    rewrite bool_decide_eq_false_2 by exact HP0.
    rewrite bool_decide_eq_true_2 by exact HP1.
    rewrite He. reflexivity.
Qed.

(** X3: the current time is read only as its ISO string, and only for a
    string without a slash: a string with a slash gives the same result, or
    throws the same error, at every time. *)
Theorem parseIntervalString_clock (now now' : Z) (str : string) :
  (1 <= JS.occurrences "/" str)%nat \/ toISOString now = toISOString now' ->
  parseIntervalString now str = parseIntervalString now' str.
Proof.
  intros [H|H]; unfold parseIntervalString; cbv zeta.
  - rewrite length_split.
    destruct (2 <? S (JS.occurrences "/" str))%nat eqn:E2; [reflexivity|].
    destruct (S (JS.occurrences "/" str) =? 2)%nat eqn:E; [reflexivity|].
    apply Nat.ltb_ge in E2. apply Nat.eqb_neq in E. lia.
  - now rewrite H.
Qed.

End IntervalFurther.

(** ** The whole of a run *)

Section RunFurther.

Context {api : TimeApi} {q : QueryApi}.

(** A run ends before a dataset is built, without an engine call and
    returning [undefined]; or it passes every check and is the parse of the
    query, the verbose lines, the chain of the factories, the call of
    [External.fromJS] and, unless that throws, one engine call. *)
Lemma run_outcome (now : Z) (argv : Parsed.t) (command : option Parsed.t) :
  let parsed := default argv command in
  let flag := Parsed.data_source parsed in
  let allows := default [] (Parsed.allow parsed) in
  let timeout := default 60000 (Parsed.timeout parsed) in
  let output := JS.toLowerCase (JS.or_default (Parsed.output parsed) "json") in
  let host := JS.or_else (Parsed.druid parsed) (Parsed.host parsed) in
  let query := Parsed.query parsed in
  let interval := Parsed.interval parsed in
  let r := run now argv command in
  (datasets r.1 = [] /\ engine_calls r.1 = [] /\ r.2 = undefined) \/
  (exists sp filter,
     (command = None ->
        (length (Parsed.argv_original parsed) =? 0)%nat || Parsed.help parsed = false) /\
     Parsed.version parsed = false /\
     forallb allowed allows = true /\
     bad_output output = false /\
     JS.truthy host = true /\
     JS.truthy query = true /\
     Expression_parseSQL (JS.text query) = inr sp /\
     bad_verb (verb sp) = false /\
     (JS.truthy flag = true \/ JS.truthy (table sp) = true) /\
     (JS.truthy interval = false /\ filter = None \/
      exists range, JS.truthy interval = true /\
        parseIntervalString now (JS.text interval) = inr range /\
        filter = Some (In_ "__time" range)) /\
     let dataName := if JS.truthy flag then "data" else JS.text (table sp) in
     let ds :=
       mkExternal "druid" (if JS.truthy flag then JS.text flag else JS.text (table sp))
         "__time" (bool_decide ("eternity" ∈ allows)) (bool_decide ("select" ∈ allows))
         (Parsed.introspection_strategy parsed) filter
         (decorate (druidRequester (JS.text host) timeout)
            (layers (default 2 (Parsed.retry parsed)) (Parsed.verbose parsed)
               (default 2 (Parsed.concurrent parsed))))
         (get_attributeOverrides parsed) (get_druidContext parsed timeout) in
     r =
       (parseSQL (JS.text query) ::
        (if Parsed.verbose parsed then
           [console_log ["Parsed query as the following plywood expression (as JSON):"];
            console_log [JSON_stringify (expression sp)];
            console_log ["---------------------------"]]
         else []) ++
        map requesterFactory
          (chain (druidRequester (JS.text host) timeout)
             (layers (default 2 (Parsed.retry parsed)) (Parsed.verbose parsed)
                (default 2 (Parsed.concurrent parsed)))) ++
        External_fromJS ds ::
        match External_fromJS_throws ds with
        | Some _ => []
        | None =>
            [if String.eqb (verb sp) "DESCRIBE" then
               introspect ds
                 (match command with Some _ => returned | None => print_attributes end)
             else
               compute (expression sp) (<[dataName := ds]> ∅)
                 (match command with Some _ => returned | None => print_data output end)]
        end,
        match External_fromJS_throws ds with
        | Some e => thrown e
        | None => match command with Some _ => promise | None => undefined end
        end)).
Proof.
  intros parsed flag allows timeout output host query interval r.
  subst r flag allows timeout output host query interval.
  run_blocks; try (left; repeat split; reflexivity).
  all: try solve
    [ destruct (Parsed.verbose parsed); m_simpl; obs_chain; left; repeat split; reflexivity ].
  all: right;
    match goal with
    | H : Expression_parseSQL _ = inr ?sp, f : option Filter |- _ => exists sp, f
    end;
    repeat (split; [solve [assumption | auto]|]).
  all: cbv zeta;
    repeat match goal with
      | H : ?t = _ |- context [if ?t then _ else _] => rewrite H
      end.
  all: run_execute;
    repeat match goal with
      | H : External_fromJS_throws _ = _ |- _ => rewrite H
      end;
    first
      [ reflexivity
      | exfalso;
        match goal with
        | H : bad_verb ?v = false, H1 : String.eqb ?v "DESCRIBE" = false,
          H2 : String.eqb ?v "SELECT" = false |- _ =>
            unfold bad_verb in H; rewrite H1, H2 in H; discriminate H
        end ].
Qed.

Lemma rendered_app (a b : list event) :
  rendered (a ++ b) = rendered a ++ rendered b.
Proof. apply omap_app. Qed.

Lemma rendered_factories (l : list Requester) :
  rendered (map requesterFactory l) = [].
Proof. induction l; simpl; congruence. Qed.

Lemma rendered_cons (e : event) (l : list event) :
  rendered (e :: l) =
    match e with compute _ _ (print_data o) => [o] | _ => [] end ++ rendered l.
Proof. destruct e as [| | | | | | |? ? []]; reflexivity. Qed.

Lemma reports_cons (e : event) (l : list event) :
  reports (e :: l) =
    match e with printUsage | printVersion | console_log _ => [e] | _ => [] end ++
    reports l.
Proof. destruct e; reflexivity. Qed.

Lemma reports_app (a b : list event) :
  reports (a ++ b) = reports a ++ reports b.
Proof. apply List.filter_app. Qed.

Lemma reports_factories (l : list Requester) :
  reports (map requesterFactory l) = [].
Proof. induction l; simpl; congruence. Qed.

(** The part of a complete run before the dataset is built: the parse, the
    verbose lines and the factories. *)
Lemma success_prefix (s : string) (v : bool) (e : Expression)
    (ch : list Requester) (rest : list event) :
  let lines :=
    if v then
      [console_log ["Parsed query as the following plywood expression (as JSON):"];
       console_log [JSON_stringify e];
       console_log ["---------------------------"]]
    else [] in
  let pre := parseSQL s :: lines ++ map requesterFactory ch in
  parseSQL s :: lines ++ map requesterFactory ch ++ rest = pre ++ rest /\
  engine_calls pre = [] /\ datasets pre = [] /\ contexts pre = [] /\
  made pre = ch /\ queries pre = [s] /\ rendered pre = [] /\ reports pre = lines.
Proof.
  intros lines pre. subst pre lines. split.
  - cbn [app]. now rewrite app_assoc.
  - destruct v; cbn [app];
      rewrite ?engine_calls_cons, ?datasets_cons, ?contexts_cons, ?made_cons,
        ?queries_cons, ?engine_calls_factories, ?datasets_factories,
        ?contexts_factories, ?made_factories, ?queries_factories,
        ?rendered_cons, ?reports_cons, ?rendered_factories, ?reports_factories;
      cbn [app]; repeat split; reflexivity.
Qed.

(** A SELECT or DESCRIBE that is not a DESCRIBE is a SELECT. *)
Lemma verb_select (v : string) :
  bad_verb v = false -> String.eqb v "DESCRIBE" = false -> v = "SELECT".
Proof.
  unfold bad_verb. intros H E. rewrite E in H.
  destruct (String.eqb_spec v "SELECT"); [assumption | discriminate].
Qed.

(** The observations of the end of a run: the engine call, or nothing when
    [External.fromJS] threw. *)
Lemma engine_tail (t : option JS.exn) (b : bool) (d : External) (h h' : Handler)
    (e : Expression) (ctx : gmap string External) :
  let c := if b then introspect d h else compute e ctx h' in
  let tail := match t with Some _ => [] | None => [c] end in
  datasets tail = [] /\ made tail = [] /\ queries tail = [] /\ reports tail = [] /\
  engine_calls tail = tail /\
  contexts tail = (if b then [] else match t with Some _ => [] | None => [ctx] end) /\
  rendered tail =
    (if b then []
     else match t, h' with None, print_data o => [o] | _, _ => [] end).
Proof. destruct t, b, h'; repeat split; reflexivity. Qed.

(** A run that passed every check, split at the call of [External.fromJS]:
    what comes before it, the call, and the engine call unless it threw. *)
Lemma run_complete (now : Z) (argv : Parsed.t) (command : option Parsed.t) :
  let parsed := default argv command in
  let flag := Parsed.data_source parsed in
  let allows := default [] (Parsed.allow parsed) in
  let timeout := default 60000 (Parsed.timeout parsed) in
  let output := JS.toLowerCase (JS.or_default (Parsed.output parsed) "json") in
  let host := JS.or_else (Parsed.druid parsed) (Parsed.host parsed) in
  let interval := Parsed.interval parsed in
  let ch :=
    chain (druidRequester (JS.text host) timeout)
      (layers (default 2 (Parsed.retry parsed)) (Parsed.verbose parsed)
         (default 2 (Parsed.concurrent parsed))) in
  let r := run now argv command in
  (datasets r.1 = [] /\ engine_calls r.1 = [] /\ r.2 = undefined) \/
  (exists sp filter pre,
     forallb allowed allows = true /\
     bad_output output = false /\
     JS.truthy host = true /\
     Expression_parseSQL (JS.text (Parsed.query parsed)) = inr sp /\
     bad_verb (verb sp) = false /\
     (JS.truthy interval = false /\ filter = None \/
      exists range, JS.truthy interval = true /\
        parseIntervalString now (JS.text interval) = inr range /\
        filter = Some (In_ "__time" range)) /\
     let dataName := if JS.truthy flag then "data" else JS.text (table sp) in
     let ds :=
       mkExternal "druid" (if JS.truthy flag then JS.text flag else JS.text (table sp))
         "__time" (bool_decide ("eternity" ∈ allows)) (bool_decide ("select" ∈ allows))
         (Parsed.introspection_strategy parsed) filter
         (decorate (druidRequester (JS.text host) timeout)
            (layers (default 2 (Parsed.retry parsed)) (Parsed.verbose parsed)
               (default 2 (Parsed.concurrent parsed))))
         (get_attributeOverrides parsed) (get_druidContext parsed timeout) in
     let call :=
       if String.eqb (verb sp) "DESCRIBE" then
         introspect ds (match command with Some _ => returned | None => print_attributes end)
       else
         compute (expression sp) (<[dataName := ds]> ∅)
           (match command with Some _ => returned | None => print_data output end) in
     r.1 =
       pre ++ External_fromJS ds ::
         match External_fromJS_throws ds with Some _ => [] | None => [call] end /\
     r.2 =
       match External_fromJS_throws ds with
       | Some e => thrown e
       | None => match command with Some _ => promise | None => undefined end
       end /\
     engine_calls pre = [] /\ datasets pre = [] /\ made pre = ch /\
     queries pre = [JS.text (Parsed.query parsed)] /\ rendered pre = [] /\
     reports pre =
       if Parsed.verbose parsed then
         [console_log ["Parsed query as the following plywood expression (as JSON):"];
          console_log [JSON_stringify (expression sp)];
          console_log ["---------------------------"]]
       else []).
Proof.
  intros parsed flag allows timeout output host interval ch r.
  subst r ch interval host output timeout allows flag parsed.
  destruct (run_outcome now argv command)
    as [H|(sp & f & _ & _ & Ha & Ho & Hh & _ & Hp & Hv & _ & Hf & E)]; [left; exact H|].
  right. cbv zeta in E. rewrite E. clear E. cbn [fst snd].
  match goal with
  | |- context [parseSQL ?s :: ?lines ++ map requesterFactory ?c ++ ?rest] =>
      exists sp, f, (parseSQL s :: lines ++ map requesterFactory c);
      destruct (success_prefix s (Parsed.verbose (default argv command)) (expression sp)
                  c rest) as (Eq & H1 & H2 & _ & H4 & H5 & H6 & H7)
  end.
  cbv zeta in H1, H2, H4, H5, H6, H7.
  do 6 (split; [assumption|]). cbv zeta.
  split; [exact Eq|]. split; [reflexivity|].
  repeat (split; [assumption|]). assumption.
Qed.

(** X4: a run calls [External.fromJS] at most once.  When that throws, the
    error is thrown out of [run] and the engine is not called; when it
    returns, the engine is called once, as the last thing the run does:
    [introspect] on the dataset for a DESCRIBE, [compute] with the dataset
    bound in the context for a SELECT.  The run returns a promise exactly
    when it was given a [command] and calls the engine, and [undefined] when
    it does not come as far as [External.fromJS]. *)
Theorem run_engine_call (now : Z) (argv : Parsed.t) (command : option Parsed.t) :
  let parsed := default argv command in
  let r := run now argv command in
  (length (datasets r.1) <= 1)%nat /\
  (datasets r.1 = [] -> engine_calls r.1 = [] /\ r.2 = undefined) /\
  (forall ds, ds ∈ datasets r.1 ->
     (forall e, External_fromJS_throws ds = Some e ->
        r.2 = thrown e /\ engine_calls r.1 = [] /\
        exists pre, r.1 = pre ++ [External_fromJS ds]) /\
     (External_fromJS_throws ds = None ->
        length (engine_calls r.1) = 1%nat /\
        r.2 = match command with Some _ => promise | None => undefined end)) /\
  (r.2 = promise <-> is_Some command /\ engine_calls r.1 <> []) /\
  (forall e, r.2 = thrown e <->
     exists ds, ds ∈ datasets r.1 /\ External_fromJS_throws ds = Some e) /\
  (forall c, c ∈ engine_calls r.1 ->
     exists pre ds sp,
       r.1 = pre ++ [External_fromJS ds; c] /\ engine_calls pre = [] /\ datasets pre = [] /\
       External_fromJS_throws ds = None /\
       Expression_parseSQL (JS.text (Parsed.query parsed)) = inr sp /\
       (verb sp = "DESCRIBE" /\
          c = introspect ds (match command with Some _ => returned | None => print_attributes end)
        \/
        verb sp = "SELECT" /\
          exists name ctx h, c = compute (expression sp) ctx h /\ ctx = {[name := ds]} /\
            h = match command with
                | Some _ => returned
                | None =>
                    print_data (JS.toLowerCase (JS.or_default (Parsed.output parsed) "json"))
                end)).
Proof.
  intros parsed r. subst r.
  destruct (run_complete now argv command)
    as [(Hd & He & Hr)
       |(sp & f & pre & _ & _ & _ & Hp & Hverb & _ & E1 & E2 & Hpe & Hpd & _)].
  - rewrite Hd, He, Hr. split; [cbn; lia|]. split; [auto|].
    split; [intros ds H; inv_elem|]. split.
    { split; [discriminate|]. intros [_ Hne]. now contradiction Hne. }
    split.
    { intros e. split; [discriminate|]. intros (ds & H & _). inv_elem. }
    intros c Hc. inv_elem.
  - cbv zeta in E1, E2. fold parsed in E1, E2, Hp.
    match type of E1 with context [External_fromJS ?x] => set (ds := x) in * end.
    match type of E1 with
    | context [if String.eqb (verb sp) "DESCRIBE" then ?a else ?b] =>
        set (call := if String.eqb (verb sp) "DESCRIBE" then a else b) in *
    end.
    assert (Hcall : engine_calls [call] = [call] /\ datasets [call] = []).
    { subst call. destruct (String.eqb (verb sp) "DESCRIBE"); split; reflexivity. }
    destruct Hcall as [Hce Hcd].
    rewrite E1, E2. clear E1 E2.
    rewrite engine_calls_app, datasets_app, Hpe, Hpd, engine_calls_cons, datasets_cons.
    cbn [app].
    destruct (External_fromJS_throws ds) as [e|] eqn:Ht.
    + cbn [engine_calls datasets List.filter omap list_omap length].
      split; [lia|]. split; [discriminate|]. split.
      { intros d Hin. inv_elem. rewrite Ht. split; [|discriminate].
        intros e' [= <-]. split; [reflexivity|]. split; [reflexivity|].
        exists pre. reflexivity. }
      split.
      { split; [discriminate|]. intros [_ Hne]. now contradiction Hne. }
      split.
      { intros e'. split.
        - intros [= <-]. exists ds. split; [apply list_elem_of_here | exact Ht].
        - intros (d & Hin & Hd). inv_elem. rewrite Ht in Hd. now injection Hd as ->. }
      intros c Hc. inv_elem.
    + rewrite Hce, Hcd. cbn [app length].
      split; [lia|]. split; [discriminate|]. split.
      { intros d Hin. inv_elem. rewrite Ht. split; [discriminate|].
        intros _. split; reflexivity. }
      split.
      { destruct command; split; try discriminate.
        - intros _. split; [eauto | discriminate].
        - reflexivity.
        - intros [[? Hsome] _]. discriminate Hsome. }
      split.
      { intros e'. split; [destruct command; discriminate|].
        intros (d & Hin & Hd). inv_elem. rewrite Ht in Hd. discriminate Hd. }
      intros c Hc. inv_elem. exists pre, ds, sp.
      split; [reflexivity|]. split; [exact Hpe|]. split; [exact Hpd|].
      split; [exact Ht|]. split; [exact Hp|].
      subst call. destruct (String.eqb_spec (verb sp) "DESCRIBE") as [Hdesc|Hdesc].
      * left. split; [assumption | reflexivity].
      * right. split.
        { apply verb_select; [assumption|]. now apply String.eqb_neq. }
        eexists _, _, _. split; [reflexivity|]. split; [apply insert_empty | reflexivity].
Qed.

(** The dataset of a run, field by field, with the checks the run passed. *)
Lemma run_dataset_full (now : Z) (argv : Parsed.t) (command : option Parsed.t)
    (ds : External) :
  let parsed := default argv command in
  let flag := Parsed.data_source parsed in
  let allows := default [] (Parsed.allow parsed) in
  let timeout := default 60000 (Parsed.timeout parsed) in
  let host := JS.or_else (Parsed.druid parsed) (Parsed.host parsed) in
  let interval := Parsed.interval parsed in
  let tr := (run now argv command).1 in
  ds ∈ datasets tr ->
  exists sp filter,
    forallb allowed allows = true /\
    JS.truthy host = true /\
    Expression_parseSQL (JS.text (Parsed.query parsed)) = inr sp /\
    (JS.truthy interval = false /\ filter = None \/
     exists range, JS.truthy interval = true /\
       parseIntervalString now (JS.text interval) = inr range /\
       filter = Some (In_ "__time" range)) /\
    ds =
      mkExternal "druid" (if JS.truthy flag then JS.text flag else JS.text (table sp))
        "__time" (bool_decide ("eternity" ∈ allows)) (bool_decide ("select" ∈ allows))
        (Parsed.introspection_strategy parsed) filter
        (decorate (druidRequester (JS.text host) timeout)
           (layers (default 2 (Parsed.retry parsed)) (Parsed.verbose parsed)
              (default 2 (Parsed.concurrent parsed))))
        (get_attributeOverrides parsed) (get_druidContext parsed timeout) /\
    made tr =
      chain (druidRequester (JS.text host) timeout)
        (layers (default 2 (Parsed.retry parsed)) (Parsed.verbose parsed)
           (default 2 (Parsed.concurrent parsed))).
Proof.
  intros parsed flag allows timeout host interval tr Hds. subst tr.
  destruct (run_complete now argv command)
    as [(Hd & _)|(sp & f & pre & Ha & _ & Hh & Hp & _ & Hf & E1 & _ & _ & Hpd & Hpm & _)].
  - rewrite Hd in Hds. inv_elem.
  - cbv zeta in E1, Hpm.
    match type of E1 with
    | context [match ?t with
               | Some _ => []
               | None => [if ?b then introspect ?d ?h else compute ?e ?c ?h']
               end] =>
        destruct (engine_tail t b d h h' e c) as (Td & Tm & _)
    end.
    cbv zeta in Td, Tm.
    rewrite E1 in Hds |- *.
    rewrite datasets_app, Hpd, datasets_cons, Td in Hds.
    rewrite made_app, Hpm, made_cons, Tm.
    cbn [app] in Hds |- *. rewrite app_nil_r. inv_elem.
    exists sp, f. do 4 (split; [assumption|]). split; reflexivity.
Qed.

(** X5: one timeout value serves the whole run: the value of [--timeout], or
    60000 when the flag is absent, is the timeout of every bare requester
    that is made and the timeout in the context of the dataset. *)
Theorem run_one_timeout (now : Z) (argv : Parsed.t) (command : option Parsed.t) :
  let parsed := default argv command in
  let timeout := default 60000 (Parsed.timeout parsed) in
  let tr := (run now argv command).1 in
  (forall host t, druidRequester host t ∈ made tr -> t = timeout) /\
  (forall ds, ds ∈ datasets tr -> Druid.timeout (context ds) = timeout).
Proof.
  intros parsed timeout tr. split.
  - intros host t Hin. subst tr.
    destruct (run_made now argv command) as [E|E]; rewrite E in Hin; [inv_elem|].
    clear E. fold parsed in Hin. unfold layers in Hin.
    destruct (0 <? default 2 (Parsed.retry parsed)), (Parsed.verbose parsed),
      (0 <? default 2 (Parsed.concurrent parsed)); cbn [chain app] in Hin; inv_elem;
      try discriminate;
      match goal with H : druidRequester _ _ = _ |- _ => injection H as -> -> end;
      reflexivity.
  - intros ds Hds.
    destruct (run_dataset_full now argv command ds Hds) as (sp & f & _ & _ & _ & _ & -> & _).
    cbn [context]. unfold get_druidContext.
    destruct (Parsed.skip_cache _); reflexivity.
Qed.

End RunFurther.

(** ** The checks of a run, passed *)

Section Passes.

Context {api : TimeApi} {q : QueryApi}.

Lemma check_usage_pass (parsed : Parsed.t) (command : option Parsed.t) :
  (command = None ->
     (length (Parsed.argv_original parsed) =? 0)%nat || Parsed.help parsed = false) ->
  check_usage parsed command = ([], Next tt).
Proof.
  intros H. destruct (check_usage_cases parsed command) as [[_ E]|(Hc & Hu & _)];
    [exact E|]. rewrite (H Hc) in Hu. discriminate Hu.
Qed.

Lemma check_version_pass (parsed : Parsed.t) :
  Parsed.version parsed = false -> check_version parsed = ([], Next tt).
Proof. unfold check_version. now intros ->. Qed.

(** The loop stops at the first value that is not expected. *)
Lemma allow_loop_first (l1 l2 : list string) (a : string) :
  forallb allowed l1 = true -> allowed a = false ->
  for_of (l1 ++ a :: l2)
    (fun allow =>
       when (negb (allowed allow))
         (call (console_log ["Unexpected allow"; allow]);; return_ undefined)) =
    ([console_log ["Unexpected allow"; a]], Return undefined).
Proof.
  intros Hl Ha. induction l1 as [|b l1 IH]; cbn [app for_of].
  - rewrite Ha. reflexivity.
  - cbn [forallb] in Hl. apply andb_prop in Hl as [Hb Hl].
    rewrite Hb, (IH Hl). reflexivity.
Qed.

Lemma get_allow_pass (parsed : Parsed.t) :
  forallb allowed (default [] (Parsed.allow parsed)) = true ->
  get_allow parsed = ([], Next (default [] (Parsed.allow parsed))).
Proof.
  intros H. destruct (get_allow_cases parsed) as [[_ E]|(a & Hf & _)]; [exact E|].
  cbv zeta in Hf. rewrite H in Hf. discriminate Hf.
Qed.

Lemma get_output_pass (parsed : Parsed.t) :
  bad_output (JS.toLowerCase (JS.or_default (Parsed.output parsed) "json")) = false ->
  get_output parsed =
    ([], Next (JS.toLowerCase (JS.or_default (Parsed.output parsed) "json"))).
Proof. unfold get_output. now intros ->. Qed.

Lemma get_host_pass (parsed : Parsed.t) :
  JS.truthy (JS.or_else (Parsed.druid parsed) (Parsed.host parsed)) = true ->
  get_host parsed = ([], Next (JS.or_else (Parsed.druid parsed) (Parsed.host parsed))).
Proof. unfold get_host. now intros ->. Qed.

End Passes.

(** The flag checks of a run whose conditions are at hand. *)
Ltac pass_flags :=
  unfold run; cbv zeta;
  rewrite ?check_usage_pass by assumption; m_simpl;
  rewrite ?check_version_pass by assumption; m_simpl;
  rewrite ?get_allow_pass by assumption; m_simpl;
  rewrite ?get_output_pass by assumption; m_simpl;
  rewrite ?get_host_pass by assumption; m_simpl.

Section RunStops.

Context {api : TimeApi} {q : QueryApi}.

(** X6: after the usage and version checks, the first allow value that is
    neither eternity nor select ends the run: it is the one reported, the
    values after it are not looked at and nothing else is done. *)
Theorem run_unexpected_allow (now : Z) (argv : Parsed.t) (command : option Parsed.t)
    (l1 l2 : list string) (a : string) :
  let parsed := default argv command in
  (command = None ->
     (length (Parsed.argv_original parsed) =? 0)%nat || Parsed.help parsed = false) ->
  Parsed.version parsed = false ->
  Parsed.allow parsed = Some (l1 ++ a :: l2) ->
  forallb allowed l1 = true ->
  allowed a = false ->
  run now argv command = ([console_log ["Unexpected allow"; a]], undefined).
Proof.
  intros parsed Hu Hv Ha Hl Hbad. pass_flags. fold parsed.
  unfold get_allow. rewrite Ha. cbn [default from_option id].
  rewrite (allow_loop_first l1 l2 a Hl Hbad). reflexivity.
Qed.

(** X7: once the flags are accepted (no usage or version request, expected
    allow values, a known output, a host), the query is looked at: without
    one the run says so and the parser is not called; a query the parser
    throws on is reported with the message of the error; a parsed query
    whose verb is neither SELECT nor DESCRIBE is refused.  Each time the
    run ends there, before a requester is made. *)
Theorem run_query_rejected (now : Z) (argv : Parsed.t) (command : option Parsed.t) :
  let parsed := default argv command in
  let query := Parsed.query parsed in
  let r := run now argv command in
  (command = None ->
     (length (Parsed.argv_original parsed) =? 0)%nat || Parsed.help parsed = false) ->
  Parsed.version parsed = false ->
  forallb allowed (default [] (Parsed.allow parsed)) = true ->
  bad_output (JS.toLowerCase (JS.or_default (Parsed.output parsed) "json")) = false ->
  JS.truthy (JS.or_else (Parsed.druid parsed) (Parsed.host parsed)) = true ->
  (JS.truthy query = false ->
     r = ([console_log ["no query found please use --query (-q) flag"]], undefined)) /\
  (forall e, JS.truthy query = true -> Expression_parseSQL (JS.text query) = inl e ->
     r = ([parseSQL (JS.text query);
           console_log ["Could not parse query as SQL:"; JS.message e]], undefined)) /\
  (forall sp, JS.truthy query = true -> Expression_parseSQL (JS.text query) = inr sp ->
     verb sp <> "SELECT" -> verb sp <> "DESCRIBE" ->
     r = ([parseSQL (JS.text query);
           console_log ["SQL must be a SELECT or DESCRIBE query"]], undefined)).
Proof.
  intros parsed query r Hu Hv Ha Ho Hh. subst r query.
  split; [|split].
  - intros Hq. pass_flags. fold parsed. unfold get_sql. rewrite Hq. reflexivity.
  - intros e Hq He. pass_flags. fold parsed. unfold get_sql. rewrite Hq, He. reflexivity.
  - intros sp Hq Hp Hs Hd. pass_flags. fold parsed. unfold get_sql. rewrite Hq, Hp.
    assert (Hb : bad_verb (verb sp) = true).
    { unfold bad_verb. apply String.eqb_neq in Hs, Hd. now rewrite Hs, Hd. }
    rewrite Hb. reflexivity.
Qed.

End RunStops.

Section RunDataset.

Context {api : TimeApi} {q : QueryApi}.

(** A requester is made only for a host. *)
Lemma run_made_host (now : Z) (argv : Parsed.t) (command : option Parsed.t) :
  let parsed := default argv command in
  made (run now argv command).1 <> [] ->
  JS.truthy (JS.or_else (Parsed.druid parsed) (Parsed.host parsed)) = true.
Proof.
  intros parsed. run_blocks; intros Hm;
    first [assumption | exfalso; apply Hm; reflexivity].
Qed.

(** X8: the host of the bare requester is the value of [--druid] when that
    is given and not empty, the value of [--host] otherwise; it is never the
    empty string. *)
Theorem run_host (now : Z) (argv : Parsed.t) (command : option Parsed.t)
    (h : string) (t : Z) :
  let parsed := default argv command in
  druidRequester h t ∈ made (run now argv command).1 ->
  h <> EmptyString /\
  (JS.truthy (Parsed.druid parsed) = true -> Parsed.druid parsed = Some h) /\
  (JS.truthy (Parsed.druid parsed) = false -> Parsed.host parsed = Some h).
Proof.
  intros parsed Hin.
  assert (Hh : JS.truthy (JS.or_else (Parsed.druid parsed) (Parsed.host parsed)) = true).
  { apply (run_made_host now argv command). intros E. rewrite E in Hin. inv_elem. }
  assert (Eh : h = JS.text (JS.or_else (Parsed.druid parsed) (Parsed.host parsed))).
  { destruct (run_made now argv command) as [E|E]; rewrite E in Hin; [inv_elem|].
    clear E. fold parsed in Hin. unfold layers in Hin.
    destruct (0 <? default 2 (Parsed.retry parsed)), (Parsed.verbose parsed),
      (0 <? default 2 (Parsed.concurrent parsed)); cbn [chain app] in Hin; inv_elem;
      try discriminate;
      match goal with H : druidRequester _ _ = _ |- _ => injection H as -> -> end;
      reflexivity. }
  unfold JS.or_else in Hh, Eh.
  destruct (JS.truthy (Parsed.druid parsed)) eqn:Hd.
  - destruct (Parsed.druid parsed) as [[|c s]|]; try discriminate Hd.
    cbn in Eh. subst h. split; [discriminate|]. split; [reflexivity | discriminate].
  - destruct (Parsed.host parsed) as [[|c s]|]; try discriminate Hh.
    cbn in Eh. subst h. split; [discriminate|]. split; [discriminate | reflexivity].
Qed.

(** X9: [--skip-cache] sets both cache switches of the context of the
    dataset to false; without it neither is set.  The two never differ. *)
Theorem run_cache_flags (now : Z) (argv : Parsed.t) (command : option Parsed.t)
    (ds : External) :
  let parsed := default argv command in
  ds ∈ datasets (run now argv command).1 ->
  Druid.useCache (context ds) = Druid.populateCache (context ds) /\
  Druid.useCache (context ds) =
    if Parsed.skip_cache parsed then Some false else None.
Proof.
  intros parsed Hds.
  destruct (run_dataset_full now argv command ds Hds)
    as (sp & f & _ & _ & _ & _ & -> & _).
  cbn [context]. unfold get_druidContext. fold parsed.
  destruct (Parsed.skip_cache parsed); split; reflexivity.
Qed.

(** X10: the two allowances of the dataset are read off the allow values:
    eternity and select are each allowed exactly when named, the values can
    name nothing else, and without [--allow] both are off. *)
Theorem run_allowances (now : Z) (argv : Parsed.t) (command : option Parsed.t)
    (ds : External) :
  let parsed := default argv command in
  let allows := default [] (Parsed.allow parsed) in
  ds ∈ datasets (run now argv command).1 ->
  (allowEternity ds = true <-> "eternity" ∈ allows) /\
  (allowSelectQueries ds = true <-> "select" ∈ allows) /\
  (forall a, a ∈ allows -> a = "eternity" \/ a = "select") /\
  (Parsed.allow parsed = None ->
     allowEternity ds = false /\ allowSelectQueries ds = false).
Proof.
  intros parsed allows Hds.
  destruct (run_dataset_full now argv command ds Hds)
    as (sp & f & Ha & _ & _ & _ & -> & _).
  fold parsed in Ha. fold allows in Ha. fold parsed. fold allows.
  cbn [allowEternity allowSelectQueries].
  split; [apply bool_decide_eq_true|]. split; [apply bool_decide_eq_true|]. split.
  - intros a Hin. rewrite forallb_forall in Ha.
    apply list_elem_of_In, Ha in Hin. unfold allowed in Hin.
    apply orb_prop in Hin as [Hin|Hin]; apply String.eqb_eq in Hin; auto.
  - intros Hnone. subst allows. rewrite Hnone. split; reflexivity.
Qed.

(** X11: the dataset is a druid dataset on the time attribute [__time] with
    the introspection strategy of the flag as it was given.  It has a filter
    exactly when [--interval] is given and not empty, and the filter is the
    time attribute in the range [parseIntervalString] returned for it. *)
Theorem run_time_filter (now : Z) (argv : Parsed.t) (command : option Parsed.t)
    (ds : External) :
  let parsed := default argv command in
  let interval := Parsed.interval parsed in
  ds ∈ datasets (run now argv command).1 ->
  engine ds = "druid" /\ timeAttribute ds = "__time" /\
  introspectionStrategy ds = Parsed.introspection_strategy parsed /\
  (filter ds = None <-> JS.truthy interval = false) /\
  (forall ref range, filter ds = Some (In_ ref range) ->
     ref = timeAttribute ds /\
     parseIntervalString now (JS.text interval) = inr range).
Proof.
  intros parsed interval Hds.
  destruct (run_dataset_full now argv command ds Hds)
    as (sp & f & _ & _ & _ & Hf & -> & _).
  fold parsed in Hf. fold interval in Hf. fold parsed.
  cbn [engine timeAttribute introspectionStrategy filter].
  do 3 (split; [reflexivity|]).
  destruct Hf as [[Hi ->]|(range & Hi & Hr & ->)]; split.
  - split; auto.
  - discriminate.
  - rewrite Hi. split; discriminate.
  - intros ref range' E. injection E as <- <-. auto.
Qed.

(** X12: an interval that [parseIntervalString] throws on ends the run
    without a dataset and without an engine call.  Where the run had come
    as far as making its requesters, they were made for nothing: the run
    ends with the two lines of the error. *)
Theorem run_interval_error (now : Z) (argv : Parsed.t) (command : option Parsed.t)
    (e : JS.exn) :
  let parsed := default argv command in
  let interval := Parsed.interval parsed in
  let r := run now argv command in
  JS.truthy interval = true ->
  parseIntervalString now (JS.text interval) = inl e ->
  datasets r.1 = [] /\ engine_calls r.1 = [] /\ r.2 = undefined /\
  (made r.1 <> [] ->
   exists pre,
     r.1 = pre ++ [console_log ["Could not parse interval"; JS.text interval];
                    console_log [JS.message e]] /\
     made pre = made r.1).
Proof.
  intros parsed interval r Hi He.
  assert (Hnone : datasets r.1 = [] /\ engine_calls r.1 = [] /\ r.2 = undefined).
  { destruct (run_outcome now argv command)
      as [H|(sp & f & _ & _ & _ & _ & _ & _ & _ & _ & _ & Hf & _)]; [exact H|].
    exfalso. fold parsed in Hf. fold interval in Hf.
    destruct Hf as [[Hf _]|(range & _ & Hf & _)]; congruence. }
  destruct Hnone as (Hd & Hc & Hr). do 3 (split; [assumption|]).
  clear Hd Hc Hr. subst r interval. revert Hi He.
  run_blocks; intros Hi He Hm; try solve [exfalso; apply Hm; reflexivity].
  all: try solve
    [ exfalso;
      match goal with
      | H : _ \/ _ |- _ => destruct H as [[H _]|(? & _ & H & _)]; congruence
      end ].
  all: try solve
    [ exfalso; apply Hm; destruct (Parsed.verbose parsed); reflexivity ].
  all: match goal with
       | H : parseIntervalString _ _ = inl ?e' |- _ =>
           rewrite He in H; injection H as <-
       end.
  all: match goal with
       | |- context [map requesterFactory ?c] => set (ch := c) in *
       end.
  all: eexists (parseSQL _ :: _ ++ map requesterFactory ch).
  all: split; [cbn [app]; rewrite <- app_assoc; reflexivity|].
  all: rewrite !made_cons, !made_app, made_factories; cbn [made omap list_omap app];
    now rewrite !app_nil_r.
Qed.

End RunDataset.

(** The reports of a known trace. *)
Ltac obs_reports :=
  rewrite ?reports_cons, ?reports_app, ?reports_cons, ?reports_factories;
  cbn [reports List.filter app]; rewrite ?app_nil_r.

Section RunReports.

Context {api : TimeApi} {q : QueryApi}.

(** X13: the parser is called at most once, on the text of [--query], as
    the first thing the run does towards the outside, and only when the
    flags before it were accepted. *)
Theorem run_parser_call (now : Z) (argv : Parsed.t) (command : option Parsed.t) :
  let parsed := default argv command in
  let query := Parsed.query parsed in
  let tr := (run now argv command).1 in
  (queries tr = [] \/ queries tr = [JS.text query]) /\
  (queries tr <> [] ->
   Parsed.version parsed = false /\
   forallb allowed (default [] (Parsed.allow parsed)) = true /\
   bad_output (JS.toLowerCase (JS.or_default (Parsed.output parsed) "json")) = false /\
   JS.truthy (JS.or_else (Parsed.druid parsed) (Parsed.host parsed)) = true /\
   JS.truthy query = true /\
   exists rest, tr = parseSQL (JS.text query) :: rest).
Proof.
  intros parsed query tr. subst tr query.
  run_blocks;
    try solve [split; [left; reflexivity | intros Hq; exfalso; apply Hq; reflexivity]].
  all: try solve
    [ split; [right; reflexivity
             | intros _; repeat (split; [assumption|]); eexists; reflexivity] ].
  all: run_leaf;
    (split; [right; reflexivity
            | intros _; repeat (split; [assumption|]); eexists; reflexivity]).
Qed.

Lemma elem_of_reports (e : event) (tr : list event) :
  match e with printUsage | printVersion | console_log _ => True | _ => False end ->
  e ∈ tr <-> e ∈ reports tr.
Proof.
  intros He. unfold reports. rewrite !list_elem_of_In, List.filter_In.
  destruct e; try contradiction; tauto.
Qed.

(** X14: the usage is printed exactly when [run] has no [command] and the
    command line is empty or has [--help]; the version exactly when
    [--version] is given and the usage is not printed.  Either one is all
    the run does, so [--help] wins over [--version] and a [command] never
    gets the usage. *)
Theorem run_usage_version (now : Z) (argv : Parsed.t) (command : option Parsed.t) :
  let parsed := default argv command in
  let usage := (length (Parsed.argv_original parsed) =? 0)%nat || Parsed.help parsed in
  let r := run now argv command in
  (printUsage ∈ r.1 <-> command = None /\ usage = true) /\
  (printVersion ∈ r.1 <->
     Parsed.version parsed = true /\ (command = None -> usage = false)) /\
  (printUsage ∈ r.1 -> r = ([printUsage], undefined)) /\
  (printVersion ∈ r.1 -> r = ([printVersion], undefined)).
Proof.
  intros parsed usage r. subst r usage.
  rewrite (elem_of_reports printUsage), (elem_of_reports printVersion) by exact I.
  run_blocks.
  all: try match goal with |- context [get_dataset ?d] => set (D := d) in * end.
  all: try run_execute.
  all: try match goal with p := default _ _ |- _ => destruct (Parsed.verbose p) eqn:? end.
  all: m_simpl; obs_reports.
  all: repeat split; intros;
    repeat match goal with
      | H : _ /\ _ |- _ => destruct H
      | H : ?c = None -> _, Hc : ?c = None |- _ => specialize (H Hc)
      end;
    inv_elem; try discriminate; try congruence; try assumption;
    try apply list_elem_of_here.
Qed.

(** X15: a run that does not call the engine ends in one of two ways.  It
    returns [undefined] and the last thing it does is print (the usage, the
    version or a line); or [External.fromJS] throws, which is then the last
    call of the run, and the error is thrown out of [run] with nothing
    printed about it. *)
Theorem run_reports (now : Z) (argv : Parsed.t) (command : option Parsed.t) :
  let r := run now argv command in
  engine_calls r.1 = [] ->
  (r.2 = undefined /\
   exists pre e, r.1 = pre ++ [e] /\
     (e = printUsage \/ e = printVersion \/ exists line, e = console_log line)) \/
  (exists err pre ds,
     r.2 = thrown err /\ r.1 = pre ++ [External_fromJS ds] /\
     External_fromJS_throws ds = Some err).
Proof.
  intros r. subst r. run_blocks.
  all: try solve
    [ intros _; left; split; [reflexivity|]; eexists [], _; split; [reflexivity|]; eauto ].
  all: try solve
    [ intros _; left; split; [reflexivity|]; eexists [_], _; split; [reflexivity|];
      eauto ].
  all: try solve
    [ intros _; left; split; [reflexivity|]; eexists (parseSQL _ :: _), _;
      split; [reflexivity|]; eauto ].
  all: try solve
    [ intros _; left; split; [reflexivity|];
      match goal with
      | |- context [parseSQL ?s :: ?L ++ map requesterFactory ?c ++ [?a; ?b]] =>
          exists (parseSQL s :: L ++ map requesterFactory c ++ [a]), b
      end;
      split; [cbn [app]; rewrite <- !app_assoc; reflexivity | eauto] ].
  all: match goal with |- context [get_dataset ?d] => set (D := d) in * end.
  all: run_execute.
  all: try solve
    [ intros _; right;
      match goal with
      | H : External_fromJS_throws ?d = Some ?e
        |- context [parseSQL ?s :: ?L ++ map requesterFactory ?c ++ [External_fromJS ?d]] =>
          exists e, (parseSQL s :: L ++ map requesterFactory c), d;
          split; [reflexivity|]; split; [|exact H]
      end;
      cbn [app]; rewrite <- !app_assoc; reflexivity ].
  all: match goal with
       | |- context [Parsed.verbose ?p] => destruct (Parsed.verbose p) eqn:?
       end;
    m_simpl; obs_chain; intros He; try discriminate He.
  all: exfalso;
    match goal with
    | H : bad_verb ?v = false, H1 : String.eqb ?v "DESCRIBE" = false,
      H2 : String.eqb ?v "SELECT" = false |- _ =>
        unfold bad_verb in H; rewrite H1, H2 in H; discriminate H
    end.
Qed.

End RunReports.

Section Rendering.

Context {api : TimeApi} {q : QueryApi} {d : DatasetApi}.

Lemma rendered_engine (tr : list event) :
  engine_calls tr = [] -> rendered tr = [].
Proof.
  induction tr as [|e tr IH]; [reflexivity|].
  rewrite engine_calls_cons, rendered_cons.
  destruct e as [| | | | | | |? ? []]; cbn [app]; try exact IH; discriminate.
Qed.

(** X16: the output format that reaches the callback of [compute] is the
    lower-cased value of [--output] (json without the flag) and one of json,
    csv, tsv and flat, so the [default] branch of the switch is never taken:
    what is printed is one of the four renderings.  A format is only ever
    rendered for a SELECT run from the command line. *)
Theorem run_rendered (now : Z) (argv : Parsed.t) (command : option Parsed.t)
    (o : string) :
  let parsed := default argv command in
  o ∈ rendered (run now argv command).1 ->
  command = None /\
  o = JS.toLowerCase (JS.or_default (Parsed.output parsed) "json") /\
  (exists sp, Expression_parseSQL (JS.text (Parsed.query parsed)) = inr sp /\
     verb sp = "SELECT") /\
  ((o = "json" /\ forall data, outputStr o data = JSON_stringify_data data) \/
   (o = "csv" /\
      forall data, outputStr o data = Dataset_toCSV (Dataset_fromJS (Dataset_toJS data))) \/
   (o = "tsv" /\
      forall data, outputStr o data = Dataset_toTSV (Dataset_fromJS (Dataset_toJS data))) \/
   (o = "flat" /\
      forall data, outputStr o data =
        JSON_stringify_flat (Dataset_flatten (Dataset_fromJS (Dataset_toJS data))))).
Proof.
  intros parsed Hin.
  destruct (run_complete now argv command)
    as [(_ & He & _)
       |(sp & f & pre & _ & Ho & _ & Hp & Hv & _ & E1 & _ & _ & _ & _ & _ & Hren & _)].
  - rewrite (rendered_engine _ He) in Hin. inv_elem.
  - cbv zeta in E1. rewrite E1, rendered_app, Hren, rendered_cons in Hin. clear E1 Hren.
    cbn [app] in Hin.
    match type of Hin with
    | context [External_fromJS_throws ?d] => destruct (External_fromJS_throws d)
    end; [cbn in Hin; inv_elem|].
    destruct (String.eqb (verb sp) "DESCRIBE") eqn:Hd; [cbn in Hin; inv_elem|].
    destruct command as [c|]; [cbn in Hin; inv_elem|].
    cbn in Hin. inv_elem.
    split; [reflexivity|]. split; [reflexivity|]. split.
    { exists sp. split; [exact Hp|]. now apply verb_select. }
    change (default argv None) with argv in Ho.
    set (o := JS.toLowerCase (JS.or_default (Parsed.output argv) "json")) in *.
    unfold bad_output in Ho. unfold outputStr.
    destruct (String.eqb_spec o "json") as [Ej|_]; [left; split; [exact Ej | reflexivity]|].
    destruct (String.eqb_spec o "csv") as [Ec|_];
      [right; left; split; [exact Ec | reflexivity]|].
    destruct (String.eqb_spec o "tsv") as [Et|_];
      [right; right; left; split; [exact Et | reflexivity]|].
    destruct (String.eqb_spec o "flat") as [Ef|_];
      [right; right; right; split; [exact Ef | reflexivity]|].
    discriminate Ho.
Qed.

End Rendering.

(** * The further properties on concrete command lines *)

#[local] Existing Instance DatasetDouble.api.

Lemma duration_error_Pxyz :
  parseIntervalString 1704153600123 "Pxyz/2024-01-02T00:00:00Z" =
    inl (JS.Error "Can not parse duration 'Pxyz'") /\
  parseIntervalString 1704153600123 "Pxyz" =
    inl (JS.Error "Can not parse duration 'Pxyz'") /\
  parseIntervalString 1704153600123 "2024-01-02T00:00:00Z/P" =
    inl (JS.Error "Duration can not be empty").
Proof.
  pose proof (parseIntervalString_duration_error (api := RefTime.api) 1704153600123
                "Pxyz" "2024-01-02T00:00:00Z" (JS.Error "Can not parse duration 'Pxyz'")
                eq_refl eq_refl) as [H _].
  pose proof (parseIntervalString_duration_error (api := RefTime.api) 1704153600123
                "2024-01-02T00:00:00Z" "P" (JS.Error "Duration can not be empty")
                eq_refl eq_refl) as [_ H'].
  split; [exact (proj1 (H eq_refl eq_refl))|].
  split; [exact (proj2 (H eq_refl eq_refl))|].
  exact (H' ltac:(discriminate) eq_refl eq_refl).
Defined.

(** The time of the call does not matter to an interval with two sides. *)
Lemma clock_not_read :
  parseIntervalString 0 "P1D/2024-01-02T00:00:00Z" =
    parseIntervalString 1704153600123 "P1D/2024-01-02T00:00:00Z".
Proof.
  apply (parseIntervalString_clock (api := RefTime.api)). left. simpl. lia.
Defined.

(** A DESCRIBE given as a [command]: the promise of [introspect] is
    returned.  An introspection strategy the dataset check refuses: the
    error is thrown out of [run] and the engine is not called. *)
Lemma engine_call_describe :
  let r := run 1704153600123 Examples.select_bar (Some CommandLines.describe_bar) in
  let r' := run 1704153600123 CommandLines.bogus_strategy None in
  (r.2 = promise /\
   exists ds, engine_calls r.1 = [introspect ds returned] /\ datasets r.1 = [ds]) /\
  (r'.2 = thrown (JS.Error "invalid introspectionStrategy 'bogus'") /\
   engine_calls r'.1 = []).
Proof.
  intros r r'.
  destruct (run_engine_call (api := RefTime.api) (q := SqlDouble.api)
              1704153600123 Examples.select_bar (Some CommandLines.describe_bar))
    as (_ & _ & _ & Hp & _).
  destruct (run_engine_call (api := RefTime.api) (q := SqlDouble.api)
              1704153600123 CommandLines.bogus_strategy None) as (_ & _ & Hds & _).
  split.
  - split.
    + apply Hp. split; [eexists; reflexivity | vm_compute; discriminate].
    + eexists. split; reflexivity.
  - assert (H : exists ds, datasets r'.1 = [ds]) by (eexists; reflexivity).
    destruct H as [ds H].
    assert (Hin : ds ∈ datasets r'.1) by (rewrite H; apply list_elem_of_here).
    destruct (Hds ds Hin) as [Ht _].
    vm_compute in H. injection H as <-.
    destruct (Ht (JS.Error "invalid introspectionStrategy 'bogus'") eq_refl)
      as (Hr & He & _).
    split; [exact Hr | exact He].
Defined.

Lemma one_timeout_5000 :
  druidRequester "broker:8082" 5000
    ∈ made (run 1704153600123 CommandLines.broker_csv None).1 /\
  exists ds, ds ∈ datasets (run 1704153600123 CommandLines.broker_csv None).1 /\
    Druid.timeout (context ds) = 5000.
Proof.
  split; [apply list_elem_of_here|].
  assert (H : exists ds, datasets (run 1704153600123 CommandLines.broker_csv None).1 = [ds])
    by (eexists; reflexivity).
  destruct H as [ds H]. exists ds.
  assert (Hin : ds ∈ datasets (run 1704153600123 CommandLines.broker_csv None).1)
    by (rewrite H; apply list_elem_of_here).
  split; [exact Hin|].
  exact (proj2 (run_one_timeout 1704153600123 CommandLines.broker_csv None) ds Hin).
Defined.

Lemma host_druid_flag :
  druidRequester "broker:8082" 5000
    ∈ made (run 1704153600123 CommandLines.broker_csv None).1 /\
  "broker:8082" <> EmptyString /\
  Parsed.druid CommandLines.broker_csv = Some "broker:8082".
Proof.
  assert (Hin : druidRequester "broker:8082" 5000
                  ∈ made (run 1704153600123 CommandLines.broker_csv None).1)
    by apply list_elem_of_here.
  split; [exact Hin|].
  destruct (run_host 1704153600123 CommandLines.broker_csv None "broker:8082" 5000 Hin)
    as (H1 & H2 & _).
  split; [exact H1 | exact (H2 eq_refl)].
Defined.

Lemma cache_flags_skip_cache :
  exists ds, ds ∈ datasets (run 1704153600123 CommandLines.broker_csv None).1 /\
    Druid.useCache (context ds) = Some false /\
    Druid.populateCache (context ds) = Some false.
Proof.
  assert (H : exists ds, datasets (run 1704153600123 CommandLines.broker_csv None).1 = [ds])
    by (eexists; reflexivity).
  destruct H as [ds H]. exists ds.
  assert (Hin : ds ∈ datasets (run 1704153600123 CommandLines.broker_csv None).1)
    by (rewrite H; apply list_elem_of_here).
  split; [exact Hin|].
  destruct (run_cache_flags 1704153600123 CommandLines.broker_csv None ds Hin) as [H1 H2].
  split; [exact H2 | rewrite <- H1; exact H2].
Defined.

Lemma allowances_both :
  exists ds, ds ∈ datasets (run 1704153600123 CommandLines.broker_csv None).1 /\
    allowEternity ds = true /\ allowSelectQueries ds = true.
Proof.
  assert (H : exists ds, datasets (run 1704153600123 CommandLines.broker_csv None).1 = [ds])
    by (eexists; reflexivity).
  destruct H as [ds H]. exists ds.
  assert (Hin : ds ∈ datasets (run 1704153600123 CommandLines.broker_csv None).1)
    by (rewrite H; apply list_elem_of_here).
  split; [exact Hin|].
  destruct (run_allowances 1704153600123 CommandLines.broker_csv None ds Hin)
    as (H1 & H2 & _).
  split; [apply H1, list_elem_of_here | apply H2, list_elem_of_further, list_elem_of_here].
Defined.

Lemma time_filter_P1D :
  exists ds, ds ∈ datasets (run 1704153600123 CommandLines.broker_csv None).1 /\
    engine ds = "druid" /\ timeAttribute ds = "__time" /\
    introspectionStrategy ds = Some "datasource-get" /\
    filter ds <> None.
Proof.
  assert (H : exists ds, datasets (run 1704153600123 CommandLines.broker_csv None).1 = [ds])
    by (eexists; reflexivity).
  destruct H as [ds H]. exists ds.
  assert (Hin : ds ∈ datasets (run 1704153600123 CommandLines.broker_csv None).1)
    by (rewrite H; apply list_elem_of_here).
  split; [exact Hin|].
  destruct (run_time_filter 1704153600123 CommandLines.broker_csv None ds Hin)
    as (H1 & H2 & H3 & H4 & _).
  split; [exact H1|]. split; [exact H2|]. split; [exact H3|].
  intros E. apply H4 in E. vm_compute in E. discriminate E.
Defined.

Lemma interval_error_forward :
  let r := run 1704153600123 Examples.forward_interval None in
  datasets r.1 = [] /\ engine_calls r.1 = [] /\ r.2 = undefined /\
  exists pre,
    r.1 = pre ++ [console_log ["Could not parse interval"; "2024-01-01T00:00:00Z/P1D"];
                   console_log ["Cannot read property 'valueOf' of null"]] /\
    made pre = made r.1.
Proof.
  intros r.
  destruct (run_interval_error (api := RefTime.api) (q := SqlDouble.api)
              1704153600123 Examples.forward_interval None
              (JS.TypeError "Cannot read property 'valueOf' of null") eq_refl eq_refl)
    as (H1 & H2 & H3 & H4).
  split; [exact H1|]. split; [exact H2|]. split; [exact H3|].
  apply H4. vm_compute. discriminate.
Defined.

Lemma unexpected_allow_nothing :
  run 1704153600123 CommandLines.bad_allow None =
    ([console_log ["Unexpected allow"; "nothing"]], undefined).
Proof.
  exact (run_unexpected_allow (api := RefTime.api) (q := SqlDouble.api)
           1704153600123 CommandLines.bad_allow None
           ["eternity"] ["other"] "nothing" (fun _ => eq_refl) eq_refl eq_refl eq_refl
           eq_refl).
Defined.

Lemma query_rejected_three :
  run 1704153600123 CommandLines.no_query None =
    ([console_log ["no query found please use --query (-q) flag"]], undefined) /\
  run 1704153600123 CommandLines.drop_bar None =
    ([parseSQL "DROP bar";
      console_log ["Could not parse query as SQL:"; "SQL parse error: unexpected DROP"]],
     undefined) /\
  run 1704153600123 CommandLines.update_bar None =
    ([parseSQL "UPDATE bar"; console_log ["SQL must be a SELECT or DESCRIBE query"]],
     undefined).
Proof.
  split; [|split].
  - exact (proj1 (run_query_rejected (api := RefTime.api) (q := SqlDouble.api)
                    1704153600123 CommandLines.no_query None
                    (fun _ => eq_refl) eq_refl eq_refl eq_refl eq_refl) eq_refl).
  - exact (proj1 (proj2 (run_query_rejected (api := RefTime.api) (q := SqlDouble.api)
                    1704153600123 CommandLines.drop_bar None
                           (fun _ => eq_refl) eq_refl eq_refl eq_refl eq_refl))
             (JS.Error "SQL parse error: unexpected DROP") eq_refl eq_refl).
  - exact (proj2 (proj2 (run_query_rejected (api := RefTime.api) (q := SqlDouble.api)
                    1704153600123 CommandLines.update_bar None
                           (fun _ => eq_refl) eq_refl eq_refl eq_refl eq_refl))
             (mkSqlParse "UPDATE" (Some "bar") "UPDATE bar") eq_refl eq_refl
             ltac:(discriminate) ltac:(discriminate)).
Defined.

Lemma parser_call_select_bar :
  queries (run 1704153600123 Examples.select_bar None).1 = ["SELECT * FROM bar"] /\
  exists rest, (run 1704153600123 Examples.select_bar None).1 =
                 parseSQL "SELECT * FROM bar" :: rest.
Proof.
  split; [reflexivity|].
  destruct (run_parser_call 1704153600123 Examples.select_bar None) as [_ H].
  destruct (H ltac:(vm_compute; discriminate)) as (_ & _ & _ & _ & _ & Hr). exact Hr.
Defined.

(** [--help --version] prints the usage; given as a [command] it prints
    the version. *)
Lemma usage_before_version :
  run 1704153600123 CommandLines.help_version None = ([printUsage], undefined) /\
  run 1704153600123 Examples.select_bar (Some CommandLines.help_version) =
    ([printVersion], undefined).
Proof.
  destruct (run_usage_version 1704153600123 CommandLines.help_version None)
    as (H1 & _ & H3 & _).
  destruct (run_usage_version 1704153600123 Examples.select_bar
              (Some CommandLines.help_version)) as (_ & H2 & _ & H4).
  split.
  - apply H3, H1. split; reflexivity.
  - apply H4, H2. split; [reflexivity | discriminate].
Defined.

(** Without a query the run ends with a line; with an introspection
    strategy the dataset check refuses it ends with the call that threw. *)
Lemma reports_or_thrown :
  (let r := run 1704153600123 CommandLines.no_query None in
   r.2 = undefined /\
   exists pre e, r.1 = pre ++ [e] /\
     (e = printUsage \/ e = printVersion \/ exists line, e = console_log line)) /\
  (let r := run 1704153600123 CommandLines.bogus_strategy None in
   exists err pre ds,
     r.2 = thrown err /\ r.1 = pre ++ [External_fromJS ds] /\
     External_fromJS_throws ds = Some err).
Proof.
  split.
  - destruct (run_reports (api := RefTime.api) (q := SqlDouble.api)
                1704153600123 CommandLines.no_query None eq_refl)
      as [H|(err & pre & ds & Hr & _)]; [exact H|].
    vm_compute in Hr. discriminate Hr.
  - destruct (run_reports (api := RefTime.api) (q := SqlDouble.api)
                1704153600123 CommandLines.bogus_strategy None eq_refl)
      as [(Hr & _)|H]; [|exact H].
    vm_compute in Hr. discriminate Hr.
Defined.

Lemma rendered_csv :
  "csv" ∈ rendered (run 1704153600123 CommandLines.broker_csv None).1 /\
  forall data, outputStr "csv" data = DatasetDouble.delimited "," data.
Proof.
  assert (Hin : "csv" ∈ rendered (run 1704153600123 CommandLines.broker_csv None).1)
    by apply list_elem_of_here.
  split; [exact Hin|].
  destruct (run_rendered 1704153600123 CommandLines.broker_csv None "csv" Hin)
    as (_ & _ & _ & [[E _]|[[_ H]|[[E _]|[E _]]]]); try discriminate E.
  exact H.
Defined.
